(** * py-dedup: time-bound message deduplication

    A shallow embedding of the Python package [py_dedup]
    ([exceptions.py], [cache/base.py], [cache/memory.py], [hasher.py],
    [deduplicator.py]) and the properties of its cache, its hasher and its
    [Deduplicator.is_duplicate] decision.

    Conventions of the embedding.
    - A Python [str] is the Rocq [string] of its UTF-8 bytes.  The order of
      two [str] by code points is the order of their UTF-8 bytes, the JSON
      encoder with [ensure_ascii=False] escapes ASCII characters only, and
      [s.encode("utf-8")] is then the identity.  A [str] holding a lone
      surrogate has no such encoding and is outside the model.
    - A reading of [time.monotonic()] is a rational number of seconds; the
      rounding of floating point is not modelled.  A function that reads the
      clock takes the reading as an argument.
    - A Python call either returns, raises, or leaves the modelled fragment
      of Python ([Outside]); nothing is stated about the last kind of run.
    - A method that mutates [self] returns the new state next to its
      outcome; a raised exception does not roll the state back. *)

From Stdlib Require Import ZArith QArith Lia Bool List String Ascii.
From Stdlib Require Import DecimalString Permutation.
From Stdlib Require DecimalFacts DecimalPos.
Import ListNotations.

Set Warnings "-register-all".
Local Open Scope string_scope.
Local Open Scope list_scope.
Local Open Scope Z_scope.

(** ** Exceptions ([exceptions.py] and the built-in ones the code meets) *)

Inductive exn_class : Type :=
| TypeError
| ValueError
| JSONDecodeError            (* a subclass of ValueError *)
| AttributeError
| KeyError
| OtherException (name : string)  (* any other class under Exception *)
| DeduplicationError
| CacheError
| SerializationError
| ConfigurationError.

(** An exception object: its class, [str(e)], the attribute
    [original_exception] of [DeduplicationError] ([None] for a built-in
    exception) and [__cause__], which [raise ... from e] sets. *)
Inductive exn : Type :=
| Exn (cls : exn_class) (message : string)
      (original_exception : option exn) (cause : option exn).

Definition exn_cls (e : exn) : exn_class := let 'Exn c _ _ _ := e in c.
Definition exn_str (e : exn) : string := let 'Exn _ m _ _ := e in m.
Definition exn_original (e : exn) : option exn := let 'Exn _ _ o _ := e in o.
Definition exn_cause (e : exn) : option exn := let 'Exn _ _ _ c := e in c.

(** [X(message)] for a class of [exceptions.py]: [original_exception]
    defaults to [None]; no cause. *)
Definition new_exn (c : exn_class) (message : string) : exn :=
  Exn c message None None.

(** [raise X(message) from e]. *)
Definition new_exn_from (c : exn_class) (message : string) (e : exn) : exn :=
  Exn c message None (Some e).

(** [isinstance(e, (SerializationError, CacheError))]. *)
Definition is_serialization_or_cache (e : exn) : bool :=
  match exn_cls e with
  | SerializationError | CacheError => true
  | _ => false
  end.

(** [isinstance(e, (TypeError, ValueError))]. *)
Definition is_type_or_value_error (e : exn) : bool :=
  match exn_cls e with
  | TypeError | ValueError | JSONDecodeError => true
  | _ => false
  end.

Inductive result (A : Type) : Type :=
| Ok (a : A)
| Raise (e : exn)
| Outside.
Arguments Ok {A} a.
Arguments Raise {A} e.
Arguments Outside {A}.

Definition bind {A B : Type} (r : result A) (f : A -> result B) : result B :=
  match r with
  | Ok a => f a
  | Raise e => Raise e
  | Outside => Outside
  end.

Notation "x <- r ;; k" := (bind r (fun x => k))
  (at level 61, r at next level, right associativity).

(** [try: r  except <guard> as e: raise (handler e)]. *)
Definition try_except {A : Type} (r : result A) (guard : exn -> bool)
    (handler : exn -> exn) : result A :=
  match r with
  | Raise e => if guard e then Raise (handler e) else Raise e
  | other => other
  end.

Definition raises {A : Type} (r : result A) : Prop := exists e, r = Raise e.

(** ** Insertion-ordered dictionaries with [str] keys

    [dict] and [collections.OrderedDict]: an association list in insertion
    order, whose keys are pairwise different. *)

Section OrderedDict.
Context {V : Type}.

Definition odict : Type := list (string * V).

Definition keys (d : odict) : list string := map fst d.

(** [d.get(key)] *)
Fixpoint od_get (key : string) (d : odict) : option V :=
  match d with
  | [] => None
  | (k, v) :: rest => if String.eqb key k then Some v else od_get key rest
  end.

(** [d[key] = value]: a present key keeps its place, a new one goes last. *)
Fixpoint od_setitem (key : string) (value : V) (d : odict) : odict :=
  match d with
  | [] => [(key, value)]
  | (k, v) :: rest =>
      if String.eqb key k then (k, value) :: rest
      else (k, v) :: od_setitem key value rest
  end.

(** [d.pop(key, None)], the popped value dropped. *)
Fixpoint od_pop (key : string) (d : odict) : odict :=
  match d with
  | [] => []
  | (k, v) :: rest =>
      if String.eqb key k then rest else (k, v) :: od_pop key rest
  end.

(** [d.move_to_end(key)]; [None] stands for its [KeyError]. *)
Definition od_move_to_end (key : string) (d : odict) : option odict :=
  match od_get key d with
  | None => None
  | Some v => Some (od_pop key d ++ [(key, v)])
  end.

Definition od_wf (d : odict) : Prop := NoDup (keys d).
End OrderedDict.
Arguments odict V : clear implicits.

(** ** The clock *)

Definition Qltb (x y : Q) : bool := negb (Qle_bool y x).

(** ** [cache/memory.py] *)

Module MemoryCache.

Record t : Type := Build { _cache : odict Q }.

(** [MemoryCache()] *)
Definition new : t := Build [].

(** [delete]: [self._cache.pop(key, None)] *)
Definition delete (key : string) (self : t) : t * result unit :=
  (Build (od_pop key (_cache self)), Ok tt).

(** [get]; [now] is what [time.monotonic()] reads when [get] asks. *)
Definition get (now : Q) (key : string) (self : t) : t * result bool :=
  match od_get key (_cache self) with
  | None => (self, Ok false)
  | Some expire_time =>
      if Qltb expire_time now
      then (fst (delete key self), Ok false)
      else (self, Ok true)
  end.

(** [set] *)
Definition set (now : Q) (key : string) (ttl_seconds : Z) (self : t)
  : t * result unit :=
  if ttl_seconds <=? 0
  then (self, Raise (new_exn CacheError "TTL must be a positive number"))
  else
    let d := od_setitem key (now + inject_Z ttl_seconds)%Q (_cache self) in
    match od_move_to_end key d with
    | Some d' => (Build d', Ok tt)
    | None => (Build d, Raise (new_exn KeyError key))
    end.

(** [clear] *)
Definition clear (self : t) : t * result unit := (Build [], Ok tt).

(** [_clean_expired] *)
Definition _clean_expired (now : Q) (self : t) : t :=
  let expired_keys :=
    map fst (filter (fun kv => Qltb (snd kv) now) (_cache self)) in
  fold_left (fun c key => fst (delete key c)) expired_keys self.

(** [__contains__] *)
Definition __contains__ (now : Q) (key : string) (self : t)
  : t * result bool := get now key self.

(** The entry of [key] is live at [now] as [get] decides it: present, and
    not expired by its test [expire_time < time.monotonic()]. *)
Definition live (now : Q) (key : string) (self : t) : Prop :=
  exists expire_time,
    od_get key (_cache self) = Some expire_time /\ (now <= expire_time)%Q.

(** Liveness in the words of the specification: the current time is strictly
    less than the expiry instant. *)
Definition live_strict (now : Q) (key : string) (self : t) : Prop :=
  exists expire_time,
    od_get key (_cache self) = Some expire_time /\ (now < expire_time)%Q.

(** The invariant of the mapping. *)
Definition wf (self : t) : Prop := od_wf (_cache self).

End MemoryCache.

(** ** [cache/base.py]

    The abstract class [BaseCache]: what [Deduplicator] asks of a backend.
    The first argument of [get] and [set] is the reading of the monotonic
    clock at the call, for a backend that reads it.  [truth] is the object's
    truth value ([__bool__], else [__len__], else true), which
    [cache_backend or ...] tests. *)

Class BaseCache (C : Type) : Type := {
  get : Q -> string -> C -> C * result bool;
  set : Q -> string -> Z -> C -> C * result unit;
  delete : string -> C -> C * result unit;
  clear : C -> C * result unit;
  truth : C -> bool
}.

(** [class MemoryCache(BaseCache)]; it defines neither [__bool__] nor
    [__len__]. *)
#[export] Instance MemoryCache_BaseCache : BaseCache MemoryCache.t := {|
  get := MemoryCache.get;
  set := MemoryCache.set;
  delete := MemoryCache.delete;
  clear := MemoryCache.clear;
  truth := fun _ => true
|}.

(** ** Python values that reach the hasher *)

(** An object that is none of the JSON types: its type's name, and what
    calling [SerializeToString()] on it gives, when it has that attribute. *)
Record pyobject : Type := {
  type_name : string;
  SerializeToString : option (result string)
}.

(** [None], [bool], [int], [str], [list], [dict] with [str] keys, and other
    objects.  [float] is not modelled. *)
Inductive pyval : Type :=
| PNone
| PBool (b : bool)
| PInt (n : Z)
| PStr (s : string)
| PList (items : list pyval)
| PDict (items : odict pyval)
| PObj (o : pyobject).

(** [isinstance(v, int)], with the value: [bool] is a subclass of [int]. *)
Definition as_int (v : pyval) : option Z :=
  match v with
  | PInt n => Some n
  | PBool true => Some 1
  | PBool false => Some 0
  | _ => None
  end.

(** [hasattr(v, "SerializeToString")] *)
Definition has_SerializeToString (v : pyval) : bool :=
  match v with
  | PObj o => match SerializeToString o with Some _ => true | None => false end
  | _ => false
  end.

(** ** The [json] module: [json.dumps(v, sort_keys=..., ensure_ascii=False)] *)

Definition chr (n : N) : ascii := ascii_of_N n.
Definition dquote : ascii := chr 34.
Definition backslash : ascii := chr 92.

Definition hex_digit (n : N) : ascii :=
  if (n <? 10)%N then chr (48 + n) else chr (87 + n).

(** [ESCAPE_DCT] of [json.encoder]: the quote, the backslash and the control
    characters; every other character is kept. *)
Definition escape_char (c : ascii) : string :=
  let n := N_of_ascii c in
  if (n =? 34)%N then String backslash (String dquote "")
  else if (n =? 92)%N then String backslash (String backslash "")
  else if (n =? 8)%N then String backslash "b"
  else if (n =? 12)%N then String backslash "f"
  else if (n =? 10)%N then String backslash "n"
  else if (n =? 13)%N then String backslash "r"
  else if (n =? 9)%N then String backslash "t"
  else if (n <? 32)%N then
    String backslash
      (String "u" (String "0" (String "0"
        (String (hex_digit (n / 16)) (String (hex_digit (n mod 16)) "")))))
  else String c "".

Fixpoint escape (s : string) : string :=
  match s with
  | EmptyString => ""
  | String c rest => (escape_char c ++ escape rest)%string
  end.

(** [py_encode_basestring] *)
Definition encode_basestring (s : string) : string :=
  String dquote (escape s ++ String dquote "")%string.

(** [int.__repr__] *)
Definition int_repr (n : Z) : string := NilZero.string_of_int (Z.to_int n).

(** [sep.join(parts)] *)
Fixpoint join (sep : string) (parts : list string) : string :=
  match parts with
  | [] => ""
  | [p] => p
  | p :: rest => (p ++ sep ++ join sep rest)%string
  end.

Fixpoint sequence {A : Type} (l : list (result A)) : result (list A) :=
  match l with
  | [] => Ok []
  | r :: rest => a <- r ;; more <- sequence rest ;; Ok (a :: more)
  end.

(** [sorted(dct.items())]: a stable sort; with pairwise different keys the
    comparison of two items is decided by their keys. *)
Fixpoint insert_item {X : Type} (e : string * X) (l : list (string * X))
  : list (string * X) :=
  match l with
  | [] => [e]
  | h :: rest =>
      if String.leb (fst e) (fst h) then e :: h :: rest
      else h :: insert_item e rest
  end.

Definition sort_items {X : Type} (l : list (string * X)) : list (string * X) :=
  fold_right insert_item [] l.

Definition not_serializable (o : pyobject) : exn :=
  new_exn TypeError
    ("Object of type " ++ type_name o ++ " is not JSON serializable")%string.

(** The text of one item of a dict, from its key and its encoded value. *)
Definition encode_item (kv : string * result string) : result string :=
  text <- snd kv ;; Ok (encode_basestring (fst kv) ++ ": " ++ text)%string.

(** The encoder, with the default separators.  It sorts the items of a dict
    and then encodes them in that order; the sort reads keys only, so the
    values are encoded here before the items are put in order, which gives
    the same text and the same first error. *)
Fixpoint json_dumps (sort_keys : bool) (v : pyval) : result string :=
  match v with
  | PNone => Ok "null"
  | PBool true => Ok "true"
  | PBool false => Ok "false"
  | PInt n => Ok (int_repr n)
  | PStr s => Ok (encode_basestring s)
  | PList items =>
      parts <- sequence (map (json_dumps sort_keys) items) ;;
      Ok ("[" ++ join ", " parts ++ "]")%string
  | PDict items =>
      let encoded :=
        map (fun kv => (fst kv, json_dumps sort_keys (snd kv))) items in
      let ordered := if sort_keys then sort_items encoded else encoded in
      parts <- sequence (map encode_item ordered) ;;
      Ok ("{" ++ join ", " parts ++ "}")%string
  | PObj o => Raise (not_serializable o)
  end.

(** ** The [json] module: [json.loads(s)]

    The decoder of [json.decoder] and [json.scanner] with its defaults
    ([strict=True]).  Numbers with a fraction or an exponent, [NaN] and the
    infinities are [float]s, and an escape [\uXXXX] of a surrogate gives a
    [str] without UTF-8 encoding: the decoder is [Unmodelled] there.  A
    [JSONDecodeError] carries its reason; the position that Python appends to
    the message is left out. *)

Inductive scanned (A : Type) : Type :=
| Scanned (a : A) (rest : string)
| Malformed (reason : string)
| Unmodelled.
Arguments Scanned {A} a rest.
Arguments Malformed {A} reason.
Arguments Unmodelled {A}.

Definition is_char (n : N) (c : ascii) : bool := (N_of_ascii c =? n)%N.

(** [WHITESPACE]: space, tab, line feed, carriage return. *)
Definition is_ws (c : ascii) : bool :=
  is_char 32 c || is_char 9 c || is_char 10 c || is_char 13 c.

Fixpoint skip_ws (s : string) : string :=
  match s with
  | String c rest => if is_ws c then skip_ws rest else s
  | EmptyString => s
  end.

Definition is_digit (c : ascii) : bool :=
  let n := N_of_ascii c in ((48 <=? n) && (n <=? 57))%N.

Definition hex_value (c : ascii) : option N :=
  let n := N_of_ascii c in
  if ((48 <=? n) && (n <=? 57))%N then Some (n - 48)%N
  else if ((97 <=? n) && (n <=? 102))%N then Some (n - 87)%N
  else if ((65 <=? n) && (n <=? 70))%N then Some (n - 55)%N
  else None.

Definition hex4 (a b c d : ascii) : option N :=
  match hex_value a, hex_value b, hex_value c, hex_value d with
  | Some x, Some y, Some z, Some w => Some (((x * 16 + y) * 16 + z) * 16 + w)%N
  | _, _, _, _ => None
  end.

Definition is_surrogate (cp : N) : bool := ((55296 <=? cp) && (cp <=? 57343))%N.

(** The UTF-8 bytes of a code point of the basic plane. *)
Definition utf8 (cp : N) : string :=
  if (cp <? 128)%N then String (chr cp) ""
  else if (cp <? 2048)%N then
    String (chr (192 + cp / 64)) (String (chr (128 + cp mod 64)) "")
  else
    String (chr (224 + cp / 4096))
      (String (chr (128 + (cp / 64) mod 64)) (String (chr (128 + cp mod 64)) "")).

(** [BACKSLASH] of [json.decoder]: the one-letter escapes. *)
Definition simple_escape (c : ascii) : option ascii :=
  let n := N_of_ascii c in
  if (n =? 34)%N then Some dquote
  else if (n =? 92)%N then Some backslash
  else if (n =? 47)%N then Some (chr 47)
  else if (n =? 98)%N then Some (chr 8)
  else if (n =? 102)%N then Some (chr 12)
  else if (n =? 110)%N then Some (chr 10)
  else if (n =? 114)%N then Some (chr 13)
  else if (n =? 116)%N then Some (chr 9)
  else None.

Definition prepend (p : string) (r : scanned string) : scanned string :=
  match r with
  | Scanned a rest => Scanned (p ++ a)%string rest
  | other => other
  end.

(** [scanstring(s, end, strict=True)], from just after the opening quote. *)
Fixpoint py_scanstring (s : string) : scanned string :=
  match s with
  | EmptyString => Malformed "Unterminated string"
  | String c r =>
      if is_char 34 c then Scanned "" r
      else if is_char 92 c then
        match r with
        | EmptyString => Malformed "Unterminated string"
        | String e r1 =>
            match simple_escape e with
            | Some ch => prepend (String ch "") (py_scanstring r1)
            | None =>
                if is_char 117 e then
                  match r1 with
                  | String h1 (String h2 (String h3 (String h4 r2))) =>
                      match hex4 h1 h2 h3 h4 with
                      | Some cp =>
                          if is_surrogate cp then Unmodelled
                          else prepend (utf8 cp) (py_scanstring r2)
                      | None => Malformed "Invalid \uXXXX escape"
                      end
                  | _ => Malformed "Invalid \uXXXX escape"
                  end
                else Malformed "Invalid \escape"
            end
        end
      else if (N_of_ascii c <? 32)%N then Malformed "Invalid control character"
      else prepend (String c "") (py_scanstring r)
  end.

Fixpoint strip_prefix (p s : string) : option string :=
  match p, s with
  | EmptyString, _ => Some s
  | String a p', String b s' => if Ascii.eqb a b then strip_prefix p' s' else None
  | String _ _, EmptyString => None
  end.

(** The longest run of digits at the head of [s], as a number, and the rest. *)
Fixpoint digits (acc : Z) (s : string) : Z * string :=
  match s with
  | String c rest =>
      if is_digit c then digits (10 * acc + Z.of_N (N_of_ascii c - 48)) rest
      else (acc, s)
  | EmptyString => (acc, s)
  end.

Definition head_is (p : ascii -> bool) (s : string) : bool :=
  match s with
  | String c _ => p c
  | EmptyString => false
  end.

(** After the integer part: does a fraction [\.\d+] or an exponent
    [[eE][-+]?\d+] follow? *)
Definition float_follows (s : string) : bool :=
  match s with
  | String c rest =>
      if is_char 46 c then head_is is_digit rest
      else if is_char 101 c || is_char 69 c then
        head_is is_digit rest
        || (head_is (fun d => is_char 43 d || is_char 45 d) rest
            && match rest with
               | String _ rest' => head_is is_digit rest'
               | EmptyString => false
               end)
      else false
  | EmptyString => false
  end.

(** [NUMBER_RE.match]: an optional minus sign, then a zero or a run of digits
    that starts with none, and what follows; [None] when the text is no
    number. *)
Definition scan_number (s : string) : option (scanned pyval) :=
  let '(negative, s1) :=
    match s with
    | String c rest => if is_char 45 c then (true, rest) else (false, s)
    | EmptyString => (false, s)
    end in
  match s1 with
  | String c rest =>
      if is_digit c then
        let '(n, rest') :=
          if is_char 48 c then (0, rest)
          else digits (Z.of_N (N_of_ascii c - 48)) rest in
        if float_follows rest' then Some Unmodelled
        else Some (Scanned (PInt (if negative then - n else n)) rest')
      else None
  | EmptyString => None
  end.

Definition is_float_constant (s : string) : bool :=
  match strip_prefix "NaN" s, strip_prefix "Infinity" s,
        strip_prefix "-Infinity" s with
  | None, None, None => false
  | _, _, _ => true
  end.

(** [scan_once], [JSONObject] and [JSONArray].  [fuel] bounds the depth of
    the calls; the decoder is [Unmodelled] when it runs out. *)
Fixpoint scan_once (fuel : nat) (s : string) : scanned pyval :=
  match fuel with
  | O => Unmodelled
  | S fuel =>
      match s with
      | EmptyString => Malformed "Expecting value"
      | String c r =>
          if is_char 34 c then
            match py_scanstring r with
            | Scanned text rest => Scanned (PStr text) rest
            | Malformed m => Malformed m
            | Unmodelled => Unmodelled
            end
          else if is_char 123 c then
            match skip_ws r with
            | String c1 r1 =>
                if is_char 125 c1 then Scanned (PDict []) r1
                else if is_char 34 c1 then JSONObject fuel r1 []
                else Malformed "Expecting property name enclosed in double quotes"
            | EmptyString =>
                Malformed "Expecting property name enclosed in double quotes"
            end
          else if is_char 91 c then
            match skip_ws r with
            | String c1 r1 =>
                if is_char 93 c1 then Scanned (PList []) r1
                else JSONArray fuel (String c1 r1) []
            | EmptyString => Malformed "Expecting value"
            end
          else
            match strip_prefix "null" s, strip_prefix "true" s,
                  strip_prefix "false" s with
            | Some rest, _, _ => Scanned PNone rest
            | _, Some rest, _ => Scanned (PBool true) rest
            | _, _, Some rest => Scanned (PBool false) rest
            | None, None, None =>
                match scan_number s with
                | Some r => r
                | None =>
                    if is_float_constant s then Unmodelled
                    else Malformed "Expecting value"
                end
            end
      end
  end

(** the loop of [JSONObject], from just after the opening quote of a key *)
with JSONObject (fuel : nat) (s : string) (pairs : odict pyval)
  : scanned pyval :=
  match fuel with
  | O => Unmodelled
  | S fuel =>
      match py_scanstring s with
      | Scanned key r =>
          match skip_ws r with
          | String c r1 =>
              if is_char 58 c then
                match scan_once fuel (skip_ws r1) with
                | Scanned value r2 =>
                    let pairs' := od_setitem key value pairs in
                    match skip_ws r2 with
                    | String c2 r3 =>
                        if is_char 125 c2 then Scanned (PDict pairs') r3
                        else if is_char 44 c2 then
                          match skip_ws r3 with
                          | String c3 r4 =>
                              if is_char 34 c3 then JSONObject fuel r4 pairs'
                              else Malformed
                                "Expecting property name enclosed in double quotes"
                          | EmptyString => Malformed
                              "Expecting property name enclosed in double quotes"
                          end
                        else Malformed "Expecting ',' delimiter"
                    | EmptyString => Malformed "Expecting ',' delimiter"
                    end
                | Malformed m => Malformed m
                | Unmodelled => Unmodelled
                end
              else Malformed "Expecting ':' delimiter"
          | EmptyString => Malformed "Expecting ':' delimiter"
          end
      | Malformed m => Malformed m
      | Unmodelled => Unmodelled
      end
  end

(** the loop of [JSONArray], from the first character of a value *)
with JSONArray (fuel : nat) (s : string) (values : list pyval)
  : scanned pyval :=
  match fuel with
  | O => Unmodelled
  | S fuel =>
      match scan_once fuel s with
      | Scanned value r =>
          let values' := values ++ [value] in
          match skip_ws r with
          | String c r1 =>
              if is_char 93 c then Scanned (PList values') r1
              else if is_char 44 c then JSONArray fuel (skip_ws r1) values'
              else Malformed "Expecting ',' delimiter"
          | EmptyString => Malformed "Expecting ',' delimiter"
          end
      | Malformed m => Malformed m
      | Unmodelled => Unmodelled
      end
  end.

(** [json.loads(s)] for a [str]: one value between optional whitespace. *)
Definition json_loads (s : string) : result pyval :=
  match scan_once (2 * String.length s + 2) (skip_ws s) with
  | Scanned v rest =>
      match skip_ws rest with
      | EmptyString => Ok v
      | String _ _ => Raise (new_exn JSONDecodeError "Extra data")
      end
  | Malformed reason => Raise (new_exn JSONDecodeError reason)
  | Unmodelled => Outside
  end.

(** ** [hasher.py] *)

Inductive HashAlgorithm : Type := SHA256 | MD5 | SHA1.

Definition HashAlgorithm_value (a : HashAlgorithm) : string :=
  match a with
  | SHA256 => "sha256"
  | MD5 => "md5"
  | SHA1 => "sha1"
  end.

(** What a caller passes as [algorithm]: a member of the enumeration or, the
    annotation not being checked, a plain [str]. *)
Inductive algorithm_arg : Type :=
| Member (a : HashAlgorithm)
| PlainStr (s : string).

Record MessageHasher : Type := {
  algorithm : algorithm_arg;
  sort_keys : bool
}.

(** [MessageHasher(algorithm=a)]: [sort_keys] defaults to [True]. *)
Definition MessageHasher_init (a : algorithm_arg) : MessageHasher :=
  {| algorithm := a; sort_keys := true |}.

(** [format.lower()].  The letters A to Z are mapped; Python maps letters
    outside ASCII as well, none of them to a letter of [json] or
    [protobuf]. *)
Definition lower_char (c : ascii) : ascii :=
  let n := N_of_ascii c in
  if ((65 <=? n) && (n <=? 90))%N then chr (n + 32) else c.

Fixpoint str_lower (s : string) : string :=
  match s with
  | EmptyString => ""
  | String c rest => String (lower_char c) (str_lower rest)
  end.

Definition unsupported_format (format : string) : exn :=
  new_exn SerializationError ("Unsupported message format: " ++ format)%string.

Definition no_SerializeToString : exn :=
  new_exn AttributeError
    "Message does not have SerializeToString method. Is this a valid protobuf message?".

(** [message.SerializeToString()] *)
Definition call_SerializeToString (message : pyval) : result string :=
  match message with
  | PObj o =>
      match SerializeToString o with
      | Some r => r
      | None => Raise no_SerializeToString
      end
  | _ => Raise no_SerializeToString
  end.

(** JSON text to be read with apostrophes in place of double quotes, for the
    examples. *)
Fixpoint text (s : string) : string :=
  match s with
  | EmptyString => ""
  | String c rest => String (if is_char 39 c then dquote else c) (text rest)
  end.

Section Hashing.

(** [hashlib.new(name)], [update(b)], [hexdigest()] for the three names of
    [HashAlgorithm]: the digests are those of the [hashlib] library. *)
Variable hexdigest : HashAlgorithm -> string -> string.

(** [_hash_bytes]: [self.algorithm.value] is looked up first. *)
Definition _hash_bytes (self : MessageHasher) (b : string) : result string :=
  match algorithm self with
  | Member a => Ok (hexdigest a b)
  | PlainStr _ =>
      Raise (new_exn AttributeError "'str' object has no attribute 'value'")
  end.

(** [_hash_string]: [s.encode("utf-8")] is [s] itself in this model. *)
Definition _hash_string (self : MessageHasher) (s : string) : result string :=
  _hash_bytes self s.

(** [_hash_json], no keyword argument passed on. *)
Definition _hash_json (self : MessageHasher) (message : pyval)
  : result string :=
  try_except
    (parsed <- match message with
               | PStr s => json_loads s
               | _ => Ok message
               end ;;
     json_str <- json_dumps (sort_keys self) parsed ;;
     _hash_string self json_str)
    is_type_or_value_error
    (fun e =>
       new_exn_from SerializationError
         ("Failed to serialize message to JSON: " ++ exn_str e)%string e).

(** [_hash_protobuf], no keyword argument passed on. *)
Definition _hash_protobuf (self : MessageHasher) (message : pyval)
  : result string :=
  try_except
    (if negb (has_SerializeToString message)
     then Raise no_SerializeToString
     else serialized <- call_SerializeToString message ;;
          _hash_bytes self serialized)
    (fun _ => true)
    (fun e =>
       new_exn_from SerializationError
         ("Failed to serialize protobuf message: " ++ exn_str e)%string e).

(** [hash_message] *)
Definition hash_message (self : MessageHasher) (message : pyval)
    (format : string) : result string :=
  let format := str_lower format in
  if String.eqb format "json" then _hash_json self message
  else if String.eqb format "protobuf" then _hash_protobuf self message
  else Raise (unsupported_format format).

(** ** [deduplicator.py] *)

(** A cache backend as [Deduplicator] holds it: an object of some class that
    implements [BaseCache]. *)
Record cache_object : Type := {
  state_type : Type;
  methods : BaseCache state_type;
  state : state_type
}.

Definition with_state (c : cache_object) (s : state_type c) : cache_object :=
  {| state_type := state_type c; methods := methods c; state := s |}.

(** A [MemoryCache] object. *)
Definition memory_cache (m : MemoryCache.t) : cache_object :=
  {| state_type := MemoryCache.t; methods := MemoryCache_BaseCache; state := m |}.

Definition obj_truth (c : cache_object) : bool :=
  @truth _ (methods c) (state c).

(** Method calls on the object: the new object and the outcome. *)
Definition obj_get (now : Q) (key : string) (c : cache_object)
  : cache_object * result bool :=
  let '(s, r) := @get _ (methods c) now key (state c) in (with_state c s, r).

Definition obj_set (now : Q) (key : string) (ttl : Z) (c : cache_object)
  : cache_object * result unit :=
  let '(s, r) := @set _ (methods c) now key ttl (state c) in (with_state c s, r).

Definition obj_clear (c : cache_object) : cache_object * result unit :=
  let '(s, r) := @clear _ (methods c) (state c) in (with_state c s, r).

Record Deduplicator : Type := {
  ttl_seconds : Z;
  cache : cache_object;
  hasher : MessageHasher;
  key_prefix : string
}.

Definition with_cache (self : Deduplicator) (c : cache_object) : Deduplicator :=
  {| ttl_seconds := ttl_seconds self; cache := c;
     hasher := hasher self; key_prefix := key_prefix self |}.

(** [_create_default_cache] *)
Definition _create_default_cache : cache_object := memory_cache MemoryCache.new.

(** [__init__].  [ttl_seconds] is any Python value; an accepted one is an
    [int], kept by its value. *)
Definition __init__ (ttl : pyval) (cache_backend : option cache_object)
    (hash_algorithm : algorithm_arg) (prefix : string) : result Deduplicator :=
  match as_int ttl with
  | Some n =>
      if n <=? 0
      then Raise (new_exn ConfigurationError
                    "ttl_seconds must be a positive integer")
      else Ok {| ttl_seconds := n;
                 cache := match cache_backend with
                          | Some c =>
                              if obj_truth c then c else _create_default_cache
                          | None => _create_default_cache
                          end;
                 hasher := MessageHasher_init hash_algorithm;
                 key_prefix := prefix |}
  | None =>
      Raise (new_exn ConfigurationError "ttl_seconds must be a positive integer")
  end.

(** The cache key of a call: lines 76 to 81 of [is_duplicate]. *)
Definition derive_cache_key (self : Deduplicator) (message : pyval)
    (format : string) (custom_key : option string) : result string :=
  match custom_key with
  | Some k => Ok (key_prefix self ++ k)%string
  | None =>
      message_hash <- hash_message (hasher self) message format ;;
      Ok (key_prefix self ++ message_hash)%string
  end.

(** The body of the [try] of [is_duplicate].  [t_get] and [t_set] are the
    readings of the clock at the calls of [get] and of [set]. *)
Definition is_duplicate_try (self : Deduplicator) (t_get t_set : Q)
    (message : pyval) (format : string) (custom_key : option string)
  : Deduplicator * result bool :=
  match derive_cache_key self message format custom_key with
  | Ok cache_key =>
      let '(c1, r1) := obj_get t_get cache_key (cache self) in
      match r1 with
      | Ok is_dup =>
          if negb is_dup then
            let '(c2, r2) := obj_set t_set cache_key (ttl_seconds self) c1 in
            (with_cache self c2, _ <- r2 ;; Ok is_dup)
          else (with_cache self c1, Ok is_dup)
      | Raise e => (with_cache self c1, Raise e)
      | Outside => (with_cache self c1, Outside)
      end
  | Raise e => (self, Raise e)
  | Outside => (self, Outside)
  end.

(** What the [except Exception as e] clause raises for [e]. *)
Definition surfaced (e : exn) : exn :=
  if is_serialization_or_cache e then e
  else new_exn_from CacheError
         ("Unexpected error during deduplication: " ++ exn_str e)%string e.

(** [is_duplicate] *)
Definition is_duplicate (self : Deduplicator) (t_get t_set : Q)
    (message : pyval) (format : string) (custom_key : option string)
  : Deduplicator * result bool :=
  let '(self', r) :=
    is_duplicate_try self t_get t_set message format custom_key in
  (self', try_except r (fun _ => true) surfaced).

(** [clear] *)
Definition Deduplicator_clear (self : Deduplicator) : Deduplicator * result unit :=
  let '(c, r) := obj_clear (cache self) in (with_cache self c, r).

(** ** Notions the properties are stated with *)

(** The invariant of a Python dict, through a whole value: the keys of every
    dict are pairwise different. *)
Inductive wf_val : pyval -> Prop :=
| wf_none : wf_val PNone
| wf_bool b : wf_val (PBool b)
| wf_int n : wf_val (PInt n)
| wf_str s : wf_val (PStr s)
| wf_obj o : wf_val (PObj o)
| wf_list items : Forall wf_val items -> wf_val (PList items)
| wf_dict items :
    od_wf items -> Forall (fun kv => wf_val (snd kv)) items ->
    wf_val (PDict items).

(** Structural equality of two values: the same scalars, lists equal item by
    item, dicts with the same keys and equal values in whatever order. *)
Inductive struct_eq : pyval -> pyval -> Prop :=
| se_none : struct_eq PNone PNone
| se_bool b : struct_eq (PBool b) (PBool b)
| se_int n : struct_eq (PInt n) (PInt n)
| se_str s : struct_eq (PStr s) (PStr s)
| se_obj o : struct_eq (PObj o) (PObj o)
| se_list l1 l2 : Forall2 struct_eq l1 l2 -> struct_eq (PList l1) (PList l2)
| se_dict d1 d1' d2 :
    Permutation d1 d1' ->
    Forall2 (fun e1 e2 => fst e1 = fst e2 /\ struct_eq (snd e1) (snd e2))
            d1' d2 ->
    struct_eq (PDict d1) (PDict d2).

(** The structure a message stands for in the JSON format: a [str] is
    serialized text and stands for what it parses to, any other value stands
    for itself. *)
Definition reads_as (message structure : pyval) : Prop :=
  match message with
  | PStr s => json_loads s = Ok structure
  | _ => structure = message
  end.

(** Two names that differ in the case of their ASCII letters only. *)
Inductive same_letters : string -> string -> Prop :=
| sl_nil : same_letters "" ""
| sl_cons c1 c2 s1 s2 :
    lower_char c1 = lower_char c2 -> same_letters s1 s2 ->
    same_letters (String c1 s1) (String c2 s2).

(** The hasher of a [Deduplicator] built with the default algorithm. *)
Definition default_hasher : MessageHasher := MessageHasher_init (Member SHA256).

(** A stand-in for [hashlib] in the examples: the name of the algorithm and
    the bytes themselves, where the library gives their digest. *)
Definition example_digest (a : HashAlgorithm) (b : string) : string :=
  (HashAlgorithm_value a ++ ":" ++ b)%string.

(** A [Deduplicator] over a [MemoryCache] in state [m]. *)
Definition memory_deduplicator (ttl : Z) (m : MemoryCache.t) (prefix : string)
  : Deduplicator :=
  {| ttl_seconds := ttl; cache := memory_cache m;
     hasher := default_hasher; key_prefix := prefix |}.

(** Values for the examples: a cache that holds a live and an older entry, a
    message as a dict, the same message as text with its fields in another
    order, and what that text parses to. *)
Definition sample_cache : MemoryCache.t :=
  MemoryCache.Build [("dedup:k", 12%Q); ("dedup:j", 3%Q)].

Definition sample_message : pyval :=
  PDict [("a", PInt 1); ("b", PList [PInt 2; PStr "x"])].

Definition sample_text : string := text "{'b': [2, 'x'], 'a': 1}".

Definition sample_parsed : pyval :=
  PDict [("b", PList [PInt 2; PStr "x"]); ("a", PInt 1)].

(** One call over a [MemoryCache], once the key is known: the check, then
    the insert when the check says "not there". *)
Definition memory_step (d : Deduplicator) (t_get t_set : Q) (key : string)
    (m : MemoryCache.t) : Deduplicator * result bool :=
  let '(m1, r1) := MemoryCache.get t_get key m in
  match r1 with
  | Ok true => (with_cache d (memory_cache m1), Ok true)
  | Ok false =>
      let '(m2, r2) := MemoryCache.set t_set key (ttl_seconds d) m1 in
      (with_cache d (memory_cache m2), _ <- r2 ;; Ok false)
  | Raise e => (with_cache d (memory_cache m1), Raise e)
  | Outside => (with_cache d (memory_cache m1), Outside)
  end.

(** A sequence of calls of [is_duplicate] in the JSON format, each at its
    time, and their outcomes in order; for the scenarios of the test
    suite. *)
Fixpoint run (d : Deduplicator) (calls : list (Q * pyval * option string))
  : list (result bool) :=
  match calls with
  | [] => []
  | (now, message, custom_key) :: rest =>
      let '(d', r) := is_duplicate d now now message "json" custom_key in
      r :: run d' rest
  end.

(** The deduplicator of [setUp] in [tests/test_basic.py]. *)
Definition test_deduper : Deduplicator :=
  memory_deduplicator 1 MemoryCache.new "dedup:".

(** [__enter__] and [__exit__]: the deduplicator as a context manager.
    [__exit__] clears the cache and returns [None] whatever the exception
    information is. *)
Definition __enter__ (self : Deduplicator) : Deduplicator := self.

Definition __exit__ (self : Deduplicator) (exc : option exn)
  : Deduplicator * result unit :=
  Deduplicator_clear self.

(** [with self as d: body(d)].  The body runs on what [__enter__] returns;
    [__exit__] is then called on every path, with the exception of the body
    if it raised; its result [None] is false, so that exception is raised
    again, unless [__exit__] raises itself. *)
Definition with_statement {A : Type} (self : Deduplicator)
    (body : Deduplicator -> Deduplicator * result A)
  : Deduplicator * result A :=
  let '(d1, r) := body (__enter__ self) in
  let '(d2, x) :=
    __exit__ d1 (match r with Raise e => Some e | _ => None end) in
  (d2, _ <- x ;; r).

(** The value that the text of [v] is read back as: [v] itself, with the
    items of every dict in the order of their keys when the text was made
    with sorted keys. *)
Fixpoint canonical (sort : bool) (v : pyval) : pyval :=
  match v with
  | PList items => PList (map (canonical sort) items)
  | PDict items =>
      let read := map (fun kv => (fst kv, canonical sort (snd kv))) items in
      PDict (if sort then sort_items read else read)
  | other => other
  end.

(** What may follow the text of a value inside a text: nothing, a comma or a
    closing bracket. *)
Definition delimited (tail : string) : bool :=
  match tail with
  | EmptyString => true
  | String c _ => is_char 44 c || is_char 93 c || is_char 125 c
  end.

(** What the text of a value starts with: a character that is no
    whitespace and closes nothing. *)
Definition starts_value (text : string) : Prop :=
  exists c rest,
    text = String c rest /\
    is_ws c = false /\ is_char 93 c = false /\ is_char 125 c = false.

(** The decoder, given enough fuel, reads the text of [v] back as
    [canonical sort v] and stops where the text stops. *)
Definition reads_back (sort : bool) (v : pyval) : Prop :=
  forall (text : string) (f : nat) (tail : string),
    json_dumps sort v = Ok text ->
    (String.length text <= f)%nat ->
    delimited tail = true ->
    scan_once f (text ++ tail) = Scanned (canonical sort v) tail.

(** * Properties *)

(** ** The clock *)

Lemma Qltb_lt (x y : Q) : Qltb x y = true <-> (x < y)%Q.
Proof.
  unfold Qltb. rewrite negb_true_iff.
  split; intro H.
  - apply Qnot_le_lt. intro L. apply Qle_bool_iff in L. congruence.
  - destruct (Qle_bool y x) eqn:E; [|reflexivity].
    apply Qle_bool_iff in E. exfalso. apply (Qlt_not_le _ _ H E).
Qed.

Lemma Qltb_ge (x y : Q) : Qltb x y = false <-> (y <= x)%Q.
Proof.
  unfold Qltb. rewrite negb_false_iff. apply Qle_bool_iff.
Qed.

(** ** Ordered dictionaries *)

Section OrderedDictFacts.
Context {V : Type}.
Implicit Types (d : odict V) (k : string) (v : V).

Lemma od_get_None k d : od_get k d = None <-> ~ In k (keys d).
Proof.
  induction d as [|[k' v'] d IH]; simpl.
  - tauto.
  - destruct (String.eqb_spec k k') as [->|N].
    + split; [discriminate | intros H; exfalso; apply H; now left].
    + rewrite IH. split; intros H; [intros [E|I]; [congruence|tauto] | tauto].
Qed.

Lemma od_pop_absent k d : od_get k d = None -> od_pop k d = d.
Proof.
  induction d as [|[k' v'] d IH]; simpl; [reflexivity|].
  destruct (String.eqb_spec k k'); [discriminate|].
  intros H. now rewrite IH.
Qed.

Lemma od_get_setitem k v d : od_get k (od_setitem k v d) = Some v.
Proof.
  induction d as [|[k' v'] d IH]; simpl.
  - now rewrite String.eqb_refl.
  - destruct (String.eqb_spec k k') as [->|N]; simpl.
    + now rewrite String.eqb_refl.
    + destruct (String.eqb_spec k k'); [contradiction | exact IH].
Qed.

Lemma od_pop_setitem k v d : od_pop k (od_setitem k v d) = od_pop k d.
Proof.
  induction d as [|[k' v'] d IH]; simpl.
  - now rewrite String.eqb_refl.
  - destruct (String.eqb_spec k k') as [->|N]; simpl.
    + now rewrite String.eqb_refl.
    + destruct (String.eqb_spec k k'); [contradiction | now rewrite IH].
Qed.

Lemma keys_pop k d x : In x (keys (od_pop k d)) -> In x (keys d).
Proof.
  induction d as [|[k' v'] d IH]; simpl; [tauto|].
  destruct (String.eqb_spec k k'); simpl; tauto.
Qed.

Lemma od_wf_pop k d : od_wf d -> od_wf (od_pop k d).
Proof.
  unfold od_wf.
  induction d as [|[k' v'] d IH]; simpl; intros W; [assumption|].
  inversion W as [|? ? Hn Hd]; subst.
  destruct (String.eqb_spec k k'); simpl; [assumption|].
  constructor; [|now apply IH].
  intros I. apply Hn. eapply keys_pop; eassumption.
Qed.

Lemma od_get_pop k d : od_wf d -> od_get k (od_pop k d) = None.
Proof.
  unfold od_wf.
  induction d as [|[k' v'] d IH]; simpl; intros W; [reflexivity|].
  inversion W as [|? ? Hn Hd]; subst.
  destruct (String.eqb_spec k k') as [->|N]; simpl.
  - now apply od_get_None.
  - destruct (String.eqb_spec k k'); [contradiction | now apply IH].
Qed.

Lemma od_get_pop_other k k' d : k' <> k -> od_get k' (od_pop k d) = od_get k' d.
Proof.
  intros N.
  induction d as [|[k0 v0] d IH]; simpl; [reflexivity|].
  destruct (String.eqb_spec k k0) as [->|N0]; simpl.
  - destruct (String.eqb_spec k' k0); [contradiction | reflexivity].
  - destruct (String.eqb_spec k' k0); [reflexivity | exact IH].
Qed.

Lemma od_get_app k d d' :
  od_get k (d ++ d') =
  match od_get k d with Some v => Some v | None => od_get k d' end.
Proof.
  induction d as [|[k0 v0] d IH]; simpl; [reflexivity|].
  destruct (String.eqb_spec k k0); [reflexivity | exact IH].
Qed.

Lemma od_move_to_end_setitem k v d :
  od_move_to_end k (od_setitem k v d) = Some (od_pop k d ++ [(k, v)]).
Proof.
  unfold od_move_to_end. now rewrite od_get_setitem, od_pop_setitem.
Qed.

Lemma od_wf_reinsert k v d : od_wf d -> od_wf (od_pop k d ++ [(k, v)]).
Proof.
  intros W. unfold od_wf, keys. rewrite map_app. simpl.
  apply NoDup_app; repeat split.
  - now apply od_wf_pop.
  - constructor; [simpl; tauto | constructor].
  - intros x I [<-|[]]. revert I. apply od_get_None. now apply od_get_pop.
Qed.

End OrderedDictFacts.


(** ** The in-memory cache *)

Lemma set_positive (now : Q) (key : string) (ttl : Z) (c : MemoryCache.t) :
  0 < ttl ->
  MemoryCache.set now key ttl c =
  (MemoryCache.Build
     (od_pop key (MemoryCache._cache c) ++ [(key, (now + inject_Z ttl)%Q)]),
   Ok tt).
Proof.
  intros P. unfold MemoryCache.set.
  destruct (Z.leb_spec ttl 0); [lia|].
  now rewrite od_move_to_end_setitem.
Qed.

Lemma set_not_positive (now : Q) (key : string) (ttl : Z) (c : MemoryCache.t) :
  ttl <= 0 ->
  MemoryCache.set now key ttl c =
  (c, Raise (new_exn CacheError "TTL must be a positive number")).
Proof.
  intros P. unfold MemoryCache.set.
  destruct (Z.leb_spec ttl 0); [reflexivity | lia].
Qed.

Lemma get_absent (now : Q) (key : string) (c : MemoryCache.t) :
  od_get key (MemoryCache._cache c) = None ->
  MemoryCache.get now key c = (c, Ok false).
Proof. intros H. unfold MemoryCache.get. now rewrite H. Qed.

Lemma get_live (now : Q) (key : string) (c : MemoryCache.t) (expire : Q) :
  od_get key (MemoryCache._cache c) = Some expire -> (now <= expire)%Q ->
  MemoryCache.get now key c = (c, Ok true).
Proof.
  intros H L. unfold MemoryCache.get. rewrite H.
  apply Qltb_ge in L. now rewrite L.
Qed.

Lemma get_expired (now : Q) (key : string) (c : MemoryCache.t) (expire : Q) :
  od_get key (MemoryCache._cache c) = Some expire -> (expire < now)%Q ->
  MemoryCache.get now key c =
  (MemoryCache.Build (od_pop key (MemoryCache._cache c)), Ok false).
Proof.
  intros H L. unfold MemoryCache.get. rewrite H.
  apply Qltb_lt in L. now rewrite L.
Qed.

(** Whatever [get] answers, a second look at the key agrees when the answer
    was "not there": the key is then absent from the mapping. *)
Lemma get_false_absent (now : Q) (key : string) (c c' : MemoryCache.t) :
  MemoryCache.wf c ->
  MemoryCache.get now key c = (c', Ok false) ->
  od_get key (MemoryCache._cache c') = None /\
  MemoryCache._cache c' = od_pop key (MemoryCache._cache c) /\
  MemoryCache.wf c'.
Proof.
  intros W. unfold MemoryCache.get.
  destruct (od_get key (MemoryCache._cache c)) as [expire|] eqn:G.
  - destruct (Qltb expire now); intros E; inversion E; subst; simpl.
    repeat split; [now apply od_get_pop | now apply od_wf_pop].
  - intros E; inversion E; subst.
    repeat split; [assumption | now rewrite od_pop_absent | assumption].
Qed.

Lemma get_true_unchanged (now : Q) (key : string) (c c' : MemoryCache.t) :
  MemoryCache.get now key c = (c', Ok true) -> c' = c.
Proof.
  unfold MemoryCache.get.
  destruct (od_get key (MemoryCache._cache c)) as [expire|].
  - destruct (Qltb expire now); intros E; inversion E; reflexivity.
  - intros E; inversion E.
Qed.

(** The invariant of the mapping holds for a new cache and is kept by every
    method. *)
Lemma memory_cache_invariant :
  MemoryCache.wf MemoryCache.new /\
  forall (now : Q) (key : string) (ttl : Z) (c : MemoryCache.t),
    MemoryCache.wf c ->
    MemoryCache.wf (fst (MemoryCache.get now key c)) /\
    MemoryCache.wf (fst (MemoryCache.set now key ttl c)) /\
    MemoryCache.wf (fst (MemoryCache.delete key c)) /\
    MemoryCache.wf (fst (MemoryCache.clear c)) /\
    MemoryCache.wf (MemoryCache._clean_expired now c).
Proof.
  split; [constructor|].
  intros now key ttl c W. repeat split.
  - unfold MemoryCache.get.
    destruct (od_get key _); [destruct (Qltb _ _)|]; simpl;
      try exact W. now apply od_wf_pop.
  - destruct (Z.le_gt_cases ttl 0) as [N|P].
    + now rewrite (set_not_positive _ _ _ _ N).
    + rewrite (set_positive _ _ _ _ P). now apply od_wf_reinsert.
  - now apply od_wf_pop.
  - constructor.
  - unfold MemoryCache._clean_expired.
    generalize (map fst (filter (fun kv => Qltb (snd kv) now)
                           (MemoryCache._cache c))).
    intros expired. revert c W.
    induction expired as [|k rest IH]; intros c W; simpl; [exact W|].
    apply IH. now apply od_wf_pop.
Qed.

(** C3, as the code has it: [MemoryCache.get] never raises, a missing key
    included; it answers true iff the key is present and live, where an entry
    is live iff the current time is at most its expiry instant (it is expired
    only once the expiry instant is strictly less than the current time); a
    live entry leaves the mapping as it was; a present but expired entry is
    removed from the mapping and the answer is false. *)
Theorem get_contract (now : Q) (key : string) (c : MemoryCache.t)
    (W : MemoryCache.wf c) :
  let out := MemoryCache.get now key c in
  (exists b, snd out = Ok b) /\
  (snd out = Ok true <-> MemoryCache.live now key c) /\
  (od_get key (MemoryCache._cache c) = None -> out = (c, Ok false)) /\
  (MemoryCache.live now key c -> fst out = c) /\
  (forall expire,
      od_get key (MemoryCache._cache c) = Some expire -> (expire < now)%Q ->
      snd out = Ok false /\
      MemoryCache._cache (fst out) = od_pop key (MemoryCache._cache c) /\
      od_get key (MemoryCache._cache (fst out)) = None).
Proof.
  cbv zeta. repeat split.
  - unfold MemoryCache.get.
    destruct (od_get key _); [destruct (Qltb _ _)|]; simpl; eauto.
  - unfold MemoryCache.get, MemoryCache.live.
    destruct (od_get key _) as [expire|] eqn:G; [|discriminate].
    destruct (Qltb expire now) eqn:L; simpl; [discriminate|].
    intros _. exists expire. split; [reflexivity | now apply Qltb_ge].
  - intros (expire & G & L). now rewrite (get_live _ _ _ _ G L).
  - apply get_absent.
  - intros (expire & G & L). now rewrite (get_live _ _ _ _ G L).
  - rewrite (get_expired _ _ _ _ H H0). reflexivity.
  - rewrite (get_expired _ _ _ _ H H0). reflexivity.
  - rewrite (get_expired _ _ _ _ H H0). simpl. now apply od_get_pop.
Qed.



(** ** The deduplicator over the in-memory cache *)

Lemma with_cache_same (d : Deduplicator) : with_cache d (cache d) = d.
Proof. now destruct d. Qed.

Lemma derive_cache_key_with_cache (d : Deduplicator) (c : cache_object)
    (message : pyval) (format : string) (custom_key : option string) :
  derive_cache_key (with_cache d c) message format custom_key =
  derive_cache_key d message format custom_key.
Proof. reflexivity. Qed.

Lemma is_duplicate_try_memory (d : Deduplicator) (m : MemoryCache.t)
    (t_get t_set : Q) (message : pyval) (format : string)
    (custom_key : option string) (key : string) :
  cache d = memory_cache m ->
  derive_cache_key d message format custom_key = Ok key ->
  is_duplicate_try d t_get t_set message format custom_key =
  memory_step d t_get t_set key m.
Proof.
  intros C K. unfold is_duplicate_try, memory_step. rewrite K, C.
  unfold obj_get. simpl.
  destruct (MemoryCache.get t_get key m) as [m1 [[|]|e|]]; simpl; try reflexivity.
  unfold obj_set. simpl.
  destruct (MemoryCache.set t_set key (ttl_seconds d) m1) as [m2 r2].
  reflexivity.
Qed.

Lemma is_duplicate_key_fails (d : Deduplicator) (t_get t_set : Q)
    (message : pyval) (format : string) (custom_key : option string) (e : exn) :
  derive_cache_key d message format custom_key = Raise e ->
  is_duplicate d t_get t_set message format custom_key = (d, Raise (surfaced e)).
Proof.
  intros K. unfold is_duplicate, is_duplicate_try. now rewrite K.
Qed.

Lemma memory_step_fresh (d : Deduplicator) (t_get t_set : Q) (key : string)
    (m m1 : MemoryCache.t) :
  0 < ttl_seconds d ->
  MemoryCache.get t_get key m = (m1, Ok false) ->
  memory_step d t_get t_set key m =
  (with_cache d
     (memory_cache
        (MemoryCache.Build
           (od_pop key (MemoryCache._cache m1) ++
            [(key, (t_set + inject_Z (ttl_seconds d))%Q)]))),
   Ok false).
Proof.
  intros P G. unfold memory_step. rewrite G.
  now rewrite (set_positive _ _ _ _ P).
Qed.

Lemma memory_step_live (d : Deduplicator) (t_get t_set : Q) (key : string)
    (m : MemoryCache.t) (expire : Q) :
  od_get key (MemoryCache._cache m) = Some expire -> (t_get <= expire)%Q ->
  memory_step d t_get t_set key m = (with_cache d (memory_cache m), Ok true).
Proof.
  intros G L. unfold memory_step. now rewrite (get_live _ _ _ _ G L).
Qed.


(** C4: over the in-memory cache, when [is_duplicate] returns true the key
    was present and live, and the deduplicator and its cache are exactly as
    before the call: nothing is inserted, no expiry instant is changed. *)
Theorem duplicate_leaves_cache_unchanged (d d' : Deduplicator)
    (m : MemoryCache.t) (t1 t2 : Q) (message : pyval) (format : string)
    (custom_key : option string)
    (C : cache d = memory_cache m)
    (R : is_duplicate d t1 t2 message format custom_key = (d', Ok true)) :
  d' = d /\
  exists key,
    derive_cache_key d message format custom_key = Ok key /\
    MemoryCache.live t1 key m.
Proof.
  unfold is_duplicate in R.
  destruct (derive_cache_key d message format custom_key) as [key|e|] eqn:K.
  - rewrite (is_duplicate_try_memory d m t1 t2 _ _ _ key C K) in R.
    unfold memory_step in R.
    destruct (MemoryCache.get t1 key m) as [m1 [[|]|e|]] eqn:G; simpl in R.
    + inversion R; subst.
      pose proof (get_true_unchanged _ _ _ _ G) as U. subst m1.
      rewrite <- C.
      split; [apply with_cache_same|].
      exists key. split; [reflexivity|].
      unfold MemoryCache.get in G. unfold MemoryCache.live.
      destruct (od_get key (MemoryCache._cache m)) as [expire|];
        [|inversion G].
      destruct (Qltb expire t1) eqn:L; [inversion G|].
      exists expire. split; [reflexivity | now apply Qltb_ge].
    + destruct (MemoryCache.set t2 key (ttl_seconds d) m1) as [m2 [[]|e|]];
        simpl in R; inversion R.
    + inversion R.
    + inversion R.
  - unfold is_duplicate_try in R. rewrite K in R. simpl in R.
    inversion R.
  - unfold is_duplicate_try in R. rewrite K in R. simpl in R. inversion R.
Qed.


(** After a call that returned false over the in-memory cache, the key is
    the last entry of the mapping, with the expiry of that call. *)
Lemma memory_step_false (d d' : Deduplicator) (t1 t2 : Q) (key : string)
    (m : MemoryCache.t) :
  MemoryCache.wf m ->
  memory_step d t1 t2 key m = (d', Ok false) ->
  exists m',
    d' = with_cache d (memory_cache m') /\
    od_get key (MemoryCache._cache m') =
      Some (t2 + inject_Z (ttl_seconds d))%Q /\
    MemoryCache.wf m'.
Proof.
  intros W R. unfold memory_step in R.
  destruct (MemoryCache.get t1 key m) as [m1 [[|]|e|]] eqn:G;
    try solve [inversion R].
  destruct (get_false_absent _ _ _ _ W G) as (A1 & _ & W1).
  destruct (Z.le_gt_cases (ttl_seconds d) 0) as [N|P].
  - rewrite (set_not_positive _ _ _ _ N) in R. simpl in R. inversion R.
  - rewrite (set_positive _ _ _ _ P) in R. simpl in R. inversion R; subst.
    eexists. split; [reflexivity|]. simpl. split.
    + rewrite od_get_app, od_get_pop by exact W1. simpl.
      now rewrite String.eqb_refl.
    + now apply od_wf_reinsert.
Qed.

(** C6: with a [custom_key], the cache key is [key_prefix + custom_key]
    whatever the message and the format are (nothing is hashed); so, over the
    in-memory cache, once a call with that [custom_key] has returned false, a
    call with the same [custom_key] and any other message, at a time before
    the expiry, returns true. *)
Theorem custom_key_overrides_content (d d' : Deduplicator) (m : MemoryCache.t)
    (t1 t2 t3 t4 : Q) (message1 message2 : pyval) (format1 format2 : string)
    (custom_key : string)
    (C : cache d = memory_cache m)
    (W : MemoryCache.wf m) :
  derive_cache_key d message1 format1 (Some custom_key) =
    Ok (key_prefix d ++ custom_key)%string /\
  derive_cache_key d message2 format2 (Some custom_key) =
    Ok (key_prefix d ++ custom_key)%string /\
  (is_duplicate d t1 t2 message1 format1 (Some custom_key) = (d', Ok false) ->
   (t3 < t2 + inject_Z (ttl_seconds d))%Q ->
   is_duplicate d' t3 t4 message2 format2 (Some custom_key) = (d', Ok true)).
Proof.
  split; [reflexivity|]. split; [reflexivity|].
  intros R L. unfold is_duplicate in R.
  rewrite (is_duplicate_try_memory d m t1 t2 message1 format1
             (Some custom_key) (key_prefix d ++ custom_key)%string C eq_refl)
    in R.
  destruct (memory_step d t1 t2 (key_prefix d ++ custom_key) m)
    as [d1 r1] eqn:S.
  destruct r1 as [b|e|]; simpl in R; inversion R; subst.
  destruct (memory_step_false _ _ _ _ _ _ W S) as (m' & -> & G & W').
  unfold is_duplicate.
  erewrite is_duplicate_try_memory; [|reflexivity|reflexivity].
  simpl key_prefix.
  erewrite memory_step_live; [reflexivity | exact G |].
  apply Qlt_le_weak. exact L.
Qed.

(** C7: a failed call leaves no half-done state.  When the cache key cannot
    be derived (hashing raises), the call raises and the deduplicator with
    its cache is exactly as before.  Over the in-memory cache, when the check
    said "not there" and the insert then fails, the call raises a
    [CacheError], the key is absent from the cache, and on the next attempt
    at any time the check says "not there" again, so the message is not
    reported as a duplicate. *)
Theorem failed_call_keeps_state (d : Deduplicator) (m : MemoryCache.t)
    (t1 t2 : Q) (message : pyval) (format : string)
    (custom_key : option string)
    (C : cache d = memory_cache m)
    (W : MemoryCache.wf m) :
  (forall e,
      derive_cache_key d message format custom_key = Raise e ->
      is_duplicate d t1 t2 message format custom_key = (d, Raise (surfaced e)))
  /\
  (forall key m1,
      derive_cache_key d message format custom_key = Ok key ->
      MemoryCache.get t1 key m = (m1, Ok false) ->
      raises (snd (MemoryCache.set t2 key (ttl_seconds d) m1)) ->
      let d1 := with_cache d (memory_cache m1) in
      (exists e,
          is_duplicate d t1 t2 message format custom_key = (d1, Raise e) /\
          exn_cls e = CacheError) /\
      od_get key (MemoryCache._cache m1) = None /\
      forall t3 t4 : Q,
        MemoryCache.get t3 key m1 = (m1, Ok false) /\
        snd (is_duplicate d1 t3 t4 message format custom_key) <> Ok true).
Proof.
  split; [intros e K; now apply is_duplicate_key_fails|].
  intros key m1 K G [e0 F]. cbv zeta.
  destruct (get_false_absent _ _ _ _ W G) as (A1 & _ & W1).
  assert (N : ttl_seconds d <= 0).
  { destruct (Z.le_gt_cases (ttl_seconds d) 0) as [N|P]; [exact N|].
    rewrite (set_positive _ _ _ _ P) in F. discriminate. }
  split; [|split; [exact A1|]].
  - exists (new_exn CacheError "TTL must be a positive number").
    split; [|reflexivity].
    unfold is_duplicate.
    rewrite (is_duplicate_try_memory d m t1 t2 _ _ _ key C K).
    unfold memory_step. rewrite G, (set_not_positive _ _ _ _ N). reflexivity.
  - intros t3 t4. split; [now apply get_absent|].
    unfold is_duplicate.
    erewrite is_duplicate_try_memory; [|reflexivity|exact K].
    unfold memory_step. rewrite (get_absent _ _ _ A1).
    simpl ttl_seconds. rewrite (set_not_positive _ _ _ _ N). simpl.
    discriminate.
Qed.


(** ** The JSON encoder and decoder *)

(** Induction on a value, with the hypothesis for every item of a list and
    for every value of a dict. *)
Lemma pyval_nested_ind (P : pyval -> Prop) :
  P PNone ->
  (forall b, P (PBool b)) ->
  (forall n, P (PInt n)) ->
  (forall s, P (PStr s)) ->
  (forall items, Forall P items -> P (PList items)) ->
  (forall items, Forall (fun kv => P (snd kv)) items -> P (PDict items)) ->
  (forall o, P (PObj o)) ->
  forall v, P v.
Proof.
  intros HN HB HI HS HL HD HO.
  fix IH 1.
  intros [ |b|n|s|items|items|o].
  - exact HN.
  - apply HB.
  - apply HI.
  - apply HS.
  - apply HL. induction items as [|x rest IHr]; constructor.
    + apply IH.
    + exact IHr.
  - apply HD. induction items as [|[k x] rest IHr]; constructor.
    + apply IH.
    + exact IHr.
  - apply HO.
Qed.

Lemma sequence_Raise {A : Type} (l : list (result A)) (e : exn) :
  sequence l = Raise e -> In (Raise e) l.
Proof.
  induction l as [|r rest IH]; simpl; [discriminate|].
  destruct r as [a|e'|]; simpl; [|intros E; inversion E; now left|discriminate].
  destruct (sequence rest) as [more|e'|]; simpl; [discriminate| |discriminate].
  intros E. inversion E; subst. right. now apply IH.
Qed.

Lemma sequence_Outside {A : Type} (l : list (result A)) :
  sequence l = Outside -> In Outside l.
Proof.
  induction l as [|r rest IH]; simpl; [discriminate|].
  destruct r as [a|e'|]; simpl; [|discriminate|now left].
  destruct (sequence rest) as [more|e'|]; simpl; [discriminate|discriminate|].
  intros _. right. now apply IH.
Qed.

Lemma insert_item_perm {X : Type} (e : string * X) (l : list (string * X)) :
  Permutation (insert_item e l) (e :: l).
Proof.
  induction l as [|h rest IH]; simpl; [reflexivity|].
  destruct (String.leb (fst e) (fst h)); [reflexivity|].
  rewrite IH. apply perm_swap.
Qed.

Lemma sort_items_perm {X : Type} (l : list (string * X)) :
  Permutation (sort_items l) l.
Proof.
  induction l as [|e rest IH]; simpl; [reflexivity|].
  rewrite insert_item_perm. now constructor.
Qed.

(** The encoder leaves the model nowhere, and what it raises is a
    [TypeError]. *)
Lemma json_dumps_outcome (sort : bool) (v : pyval) :
  json_dumps sort v <> Outside /\
  forall e, json_dumps sort v = Raise e -> exn_cls e = TypeError.
Proof.
  induction v as [ |b|n|s|items IH|items IH|o] using pyval_nested_ind;
    try (split; [discriminate | intros e E; discriminate]).
  - destruct b; split; try discriminate; intros e E; discriminate.
  - simpl.
    destruct (sequence (map (json_dumps sort) items)) as [parts|e'|] eqn:S;
      simpl.
    + split; [discriminate | intros e E; discriminate].
    + split; [discriminate|]. intros e E. inversion E; subst.
      apply sequence_Raise, in_map_iff in S. destruct S as (x & Ex & Ix).
      rewrite Forall_forall in IH. now apply (IH x Ix).
    + exfalso. apply sequence_Outside, in_map_iff in S.
      destruct S as (x & Ex & Ix).
      rewrite Forall_forall in IH. now apply (IH x Ix).
  - simpl.
    set (encoded := map (fun kv => (fst kv, json_dumps sort (snd kv))) items).
    set (ordered := if sort then sort_items encoded else encoded).
    assert (O : forall kv, In kv ordered ->
                exists x, In x items /\ snd kv = json_dumps sort (snd x)).
    { intros kv I.
      assert (I' : In kv encoded).
      { unfold ordered in I. destruct sort; [|exact I].
        eapply Permutation_in; [apply sort_items_perm | exact I]. }
      apply in_map_iff in I'. destruct I' as (x & <- & Ix).
      exists x. split; [exact Ix | reflexivity]. }
    rewrite Forall_forall in IH.
    destruct (sequence (map encode_item ordered)) as [parts|e'|] eqn:S; simpl.
    + split; [discriminate | intros e E; discriminate].
    + split; [discriminate|]. intros e E. inversion E; subst.
      apply sequence_Raise, in_map_iff in S. destruct S as (kv & Ek & Ik).
      destruct (O kv Ik) as (x & Ix & Ex).
      unfold encode_item in Ek. rewrite Ex in Ek.
      destruct (json_dumps sort (snd x)) as [t|e'|] eqn:D; simpl in Ek;
        try discriminate.
      inversion Ek; subst. now apply (IH x Ix).
    + exfalso. apply sequence_Outside, in_map_iff in S.
      destruct S as (kv & Ek & Ik).
      destruct (O kv Ik) as (x & Ix & Ex).
      unfold encode_item in Ek. rewrite Ex in Ek.
      destruct (json_dumps sort (snd x)) as [t|e'|] eqn:D; simpl in Ek;
        try discriminate.
      now apply (IH x Ix).
  - split; [discriminate|]. intros e E. inversion E. reflexivity.
Qed.

(** What the decoder raises is a [JSONDecodeError]. *)
Lemma json_loads_raises (s : string) (e : exn) :
  json_loads s = Raise e -> exn_cls e = JSONDecodeError.
Proof.
  unfold json_loads.
  destruct (scan_once _ _) as [v rest|reason|]; [| |discriminate].
  - destruct (skip_ws rest); [discriminate|].
    intros E. inversion E. reflexivity.
  - intros E. inversion E. reflexivity.
Qed.


(** What the decoder returns keeps the invariant of dicts. *)
Lemma od_setitem_keys {V : Type} (k x : string) (v : V) (d : odict V) :
  In x (keys (od_setitem k v d)) -> x = k \/ In x (keys d).
Proof.
  induction d as [|[k' v'] d IH]; simpl.
  - intros [E|[]]. now left.
  - destruct (String.eqb_spec k k'); simpl; intuition.
Qed.

Lemma od_setitem_wf {V : Type} (k : string) (v : V) (d : odict V) :
  od_wf d -> od_wf (od_setitem k v d).
Proof.
  unfold od_wf.
  induction d as [|[k' v'] d IH]; simpl; intros W.
  - repeat constructor. simpl. tauto.
  - inversion W as [|? ? Hn Hd]; subst.
    destruct (String.eqb_spec k k') as [->|N]; simpl.
    + now constructor.
    + constructor; [|now apply IH].
      intros I. apply od_setitem_keys in I. destruct I; [congruence | tauto].
Qed.

Lemma od_setitem_Forall {V : Type} (P : V -> Prop) (k : string) (v : V)
    (d : odict V) :
  P v -> Forall (fun kv => P (snd kv)) d ->
  Forall (fun kv => P (snd kv)) (od_setitem k v d).
Proof.
  intros Pv. induction 1 as [|[k' v'] d Px F IH]; simpl.
  - now repeat constructor.
  - destruct (String.eqb k k'); constructor; assumption.
Qed.

Ltac break_scan H :=
  repeat match type of H with
         | context [match ?x with _ => _ end] =>
             destruct x eqn:?; try discriminate H
         end.

Lemma scan_number_wf (s : string) (v : pyval) (rest : string) :
  scan_number s = Some (Scanned v rest) -> wf_val v.
Proof.
  unfold scan_number. intros H. break_scan H; inversion H; constructor.
Qed.

Lemma scan_wf (fuel : nat) :
  (forall s v rest, scan_once fuel s = Scanned v rest -> wf_val v) /\
  (forall s pairs v rest,
      od_wf pairs -> Forall (fun kv => wf_val (snd kv)) pairs ->
      JSONObject fuel s pairs = Scanned v rest -> wf_val v) /\
  (forall s values v rest,
      Forall wf_val values ->
      JSONArray fuel s values = Scanned v rest -> wf_val v).
Proof.
  induction fuel as [|fuel (IHv & IHo & IHa)];
    [repeat split; intros; discriminate|].
  split; [|split].
  - intros s v rest H. cbn -[strip_prefix is_char skip_ws py_scanstring scan_number
           is_float_constant od_setitem app] in H.
    destruct s as [|c r]; [discriminate|].
    destruct (is_char 34 c).
    { destruct (py_scanstring r); inversion H. constructor. }
    destruct (is_char 123 c).
    { destruct (skip_ws r) as [|c1 r1]; [discriminate|].
      destruct (is_char 125 c1).
      - inversion H. constructor; constructor.
      - destruct (is_char 34 c1); [|discriminate].
        eapply IHo; [| |exact H]; constructor. }
    destruct (is_char 91 c).
    { destruct (skip_ws r) as [|c1 r1]; [discriminate|].
      destruct (is_char 93 c1).
      - inversion H. constructor; constructor.
      - eapply IHa; [|exact H]. constructor. }
    destruct (strip_prefix "null" (String c r));
      [inversion H; constructor|].
    destruct (strip_prefix "true" (String c r));
      [inversion H; constructor|].
    destruct (strip_prefix "false" (String c r));
      [inversion H; constructor|].
    destruct (scan_number (String c r)) as [n|] eqn:N.
    + subst n. eapply scan_number_wf. exact N.
    + destruct (is_float_constant (String c r)); discriminate.
  - intros s pairs v rest W F H. cbn -[strip_prefix is_char skip_ws py_scanstring scan_number
           is_float_constant od_setitem app] in H.
    destruct (py_scanstring s) as [key r| |]; try discriminate.
    destruct (skip_ws r) as [|c r1]; [discriminate|].
    destruct (is_char 58 c); [|discriminate].
    destruct (scan_once fuel (skip_ws r1)) as [value r2| |] eqn:V;
      try discriminate.
    apply IHv in V.
    destruct (skip_ws r2) as [|c2 r3]; [discriminate|].
    destruct (is_char 125 c2).
    + inversion H; subst. constructor.
      * now apply od_setitem_wf.
      * now apply od_setitem_Forall.
    + destruct (is_char 44 c2); [|discriminate].
      destruct (skip_ws r3) as [|c3 r4]; [discriminate|].
      destruct (is_char 34 c3); [|discriminate].
      eapply IHo; [| |exact H].
      * now apply od_setitem_wf.
      * now apply od_setitem_Forall.
  - intros s values v rest F H. cbn -[strip_prefix is_char skip_ws py_scanstring scan_number
           is_float_constant od_setitem app] in H.
    destruct (scan_once fuel s) as [value r| |] eqn:V; try discriminate.
    apply IHv in V.
    assert (F' : Forall wf_val (values ++ [value]))
      by (apply Forall_app; split; [exact F | now constructor]).
    destruct (skip_ws r) as [|c r1]; [discriminate|].
    destruct (is_char 93 c).
    + inversion H; subst. now constructor.
    + destruct (is_char 44 c); [|discriminate].
      eapply IHa; [exact F' | exact H].
Qed.

Lemma json_loads_wf (s : string) (v : pyval) :
  json_loads s = Ok v -> wf_val v.
Proof.
  unfold json_loads.
  destruct (scan_once _ _) as [v' rest| |] eqn:S; try discriminate.
  destruct (skip_ws rest); [|discriminate].
  intros E. inversion E; subst. eapply (proj1 (scan_wf _)). exact S.
Qed.

(** ** The hasher *)

Lemma hash_bytes_raises (h : MessageHasher) (b : string) (e : exn) :
  _hash_bytes h b = Raise e ->
  exn_cls e = AttributeError /\ exists s, algorithm h = PlainStr s.
Proof.
  unfold _hash_bytes. destruct (algorithm h) as [a|s]; [discriminate|].
  intros E. inversion E. split; [reflexivity | now exists s].
Qed.

(** What [_hash_json] raises: a [SerializationError] made from a
    [TypeError] or a [ValueError], or the [AttributeError] of an algorithm
    that is no member of the enumeration. *)
Lemma hash_json_raises (h : MessageHasher) (message : pyval) (e : exn) :
  _hash_json h message = Raise e ->
  (exn_cls e = SerializationError /\
   exists e0, exn_cause e = Some e0 /\ is_type_or_value_error e0 = true) \/
  (exn_cls e = AttributeError /\ exists s, algorithm h = PlainStr s).
Proof.
  unfold _hash_json, try_except.
  match goal with |- context [bind ?p ?k] => destruct (bind p k) as [x|e0|] eqn:B end;
    [discriminate| |discriminate].
  assert (G : is_type_or_value_error e0 = true \/
              (exn_cls e0 = AttributeError /\ exists s, algorithm h = PlainStr s)).
  { assert (L : forall parsed,
               (json_str <- json_dumps (sort_keys h) parsed ;;
                _hash_string h json_str) = Raise e0 ->
               is_type_or_value_error e0 = true \/
               (exn_cls e0 = AttributeError /\
                exists s, algorithm h = PlainStr s)).
    { intros parsed. destruct (json_dumps (sort_keys h) parsed) as [t|e1|] eqn:D;
        simpl; [| |discriminate].
      - intros E. right. eapply hash_bytes_raises. exact E.
      - intros E. inversion E; subst. left.
        unfold is_type_or_value_error.
        now rewrite (proj2 (json_dumps_outcome _ _) _ D). }
    destruct message as [ |b|n|s|items|items|o];
      try exact (L _ B).
    destruct (json_loads s) as [parsed|e1|] eqn:P;
      [exact (L _ B) | | discriminate].
    inversion B; subst. left. unfold is_type_or_value_error.
    now rewrite (json_loads_raises _ _ P). }
  destruct G as [G|[G1 G2]].
  - rewrite G. intros E. inversion E; subst. left.
    split; [reflexivity|]. exists e0. split; [reflexivity | exact G].
  - assert (F : is_type_or_value_error e0 = false)
      by (unfold is_type_or_value_error; now rewrite G1).
    rewrite F. intros E. inversion E; subst. right. split; assumption.
Qed.

(** What [_hash_protobuf] raises is a [SerializationError] made from the
    exception met. *)
Lemma hash_protobuf_raises (h : MessageHasher) (message : pyval) (e : exn) :
  _hash_protobuf h message = Raise e ->
  exn_cls e = SerializationError /\ exists e0, exn_cause e = Some e0.
Proof.
  unfold _hash_protobuf, try_except.
  match goal with |- context [if ?c then ?a else ?b] =>
    destruct (if c then a else b) as [x|e0|] end; try discriminate.
  intros E. inversion E. split; [reflexivity | now exists e0].
Qed.

Lemma hash_message_unsupported (h : MessageHasher) (message : pyval)
    (format : string) :
  str_lower format <> "json" -> str_lower format <> "protobuf" ->
  hash_message h message format = Raise (unsupported_format (str_lower format)).
Proof.
  intros J P. unfold hash_message.
  destruct (String.eqb_spec (str_lower format) "json"); [contradiction|].
  destruct (String.eqb_spec (str_lower format) "protobuf"); [contradiction|].
  reflexivity.
Qed.

(** With an algorithm of the enumeration, hashing fails with a
    [SerializationError] only. *)
Lemma hash_message_raises (h : MessageHasher) (message : pyval)
    (format : string) (a : HashAlgorithm) (e : exn) :
  algorithm h = Member a ->
  hash_message h message format = Raise e ->
  exn_cls e = SerializationError.
Proof.
  intros M. unfold hash_message.
  destruct (String.eqb (str_lower format) "json").
  - intros E. apply hash_json_raises in E.
    destruct E as [[E _]|[_ [s E]]]; [exact E | congruence].
  - destruct (String.eqb (str_lower format) "protobuf").
    + intros E. now apply hash_protobuf_raises in E.
    + intros E. inversion E. reflexivity.
Qed.

Lemma same_letters_lower (f1 f2 : string) :
  same_letters f1 f2 -> str_lower f1 = str_lower f2.
Proof.
  induction 1 as [|c1 c2 s1 s2 E _ IH]; simpl; [reflexivity|].
  now rewrite E, IH.
Qed.



(** ** Errors of [is_duplicate] and of the constructor *)

Lemma surfaced_typed (e : exn) :
  exn_cls (surfaced e) = SerializationError \/ exn_cls (surfaced e) = CacheError.
Proof.
  unfold surfaced, is_serialization_or_cache.
  destruct e as [c msg o ca]. destruct c; simpl; auto.
Qed.

Lemma surfaced_unchanged (e : exn) :
  exn_cls e = SerializationError \/ exn_cls e = CacheError -> surfaced e = e.
Proof.
  unfold surfaced, is_serialization_or_cache. intros [E|E]; now rewrite E.
Qed.

Lemma surfaced_wrapped (e : exn) :
  exn_cls e <> SerializationError -> exn_cls e <> CacheError ->
  surfaced e =
  new_exn_from CacheError
    ("Unexpected error during deduplication: " ++ exn_str e)%string e.
Proof.
  unfold surfaced, is_serialization_or_cache. intros S C.
  destruct (exn_cls e); try reflexivity; contradiction.
Qed.

Lemma is_duplicate_outcome (d : Deduplicator) (t1 t2 : Q) (message : pyval)
    (format : string) (custom_key : option string) :
  is_duplicate d t1 t2 message format custom_key =
  (fst (is_duplicate_try d t1 t2 message format custom_key),
   match snd (is_duplicate_try d t1 t2 message format custom_key) with
   | Raise e => Raise (surfaced e)
   | other => other
   end).
Proof.
  unfold is_duplicate.
  destruct (is_duplicate_try d t1 t2 message format custom_key) as [d' [b|e|]];
    reflexivity.
Qed.


(** C9, as the code has it: construction fails, with a
    [ConfigurationError], exactly when [ttl_seconds] is not an [int] greater
    than zero; the hash algorithm is not examined, whatever is passed is kept
    in the hasher; for a valid [ttl_seconds] construction succeeds and the
    cache is a new, empty in-memory cache when none is supplied. *)
Theorem init_contract (ttl : pyval) (cache_backend : option cache_object)
    (hash_algorithm : algorithm_arg) (prefix : string) :
  let out := __init__ ttl cache_backend hash_algorithm prefix in
  ((forall n, as_int ttl = Some n -> n <= 0) <->
   out = Raise (new_exn ConfigurationError
                  "ttl_seconds must be a positive integer")) /\
  (forall n,
      as_int ttl = Some n -> 0 < n ->
      exists d,
        out = Ok d /\
        ttl_seconds d = n /\
        key_prefix d = prefix /\
        hasher d = {| algorithm := hash_algorithm; sort_keys := true |} /\
        (cache_backend = None -> cache d = memory_cache MemoryCache.new) /\
        (forall c, cache_backend = Some c -> obj_truth c = true -> cache d = c)).
Proof.
  cbv zeta. unfold __init__.
  destruct (as_int ttl) as [n|] eqn:A.
  - destruct (Z.leb_spec n 0) as [N|P].
    + split.
      * split; [reflexivity|]. intros _ n' E. inversion E; subst. exact N.
      * intros n' E. inversion E; subst. lia.
    + split.
      * split; [|discriminate]. intros H. specialize (H n eq_refl). lia.
      * intros n' E _. inversion E; subst.
        eexists. split; [reflexivity|]. simpl.
        repeat split.
        -- now intros ->.
        -- intros c -> T. now rewrite T.
  - split.
    + split; [reflexivity|]. intros _ n E. discriminate.
    + intros n E. discriminate.
Qed.


(** ** Sorted keys and structural equality *)

Lemma string_leb_trans (a b c : string) :
  String.leb a b = true -> String.leb b c = true -> String.leb a c = true.
Proof.
  unfold String.leb. revert b c.
  induction a as [|x a IH]; intros [|y b] [|z c]; simpl;
    try reflexivity; try discriminate.
  unfold Ascii.compare.
  destruct (N.compare_spec (N_of_ascii x) (N_of_ascii y)) as [E1|L1|G1];
    destruct (N.compare_spec (N_of_ascii y) (N_of_ascii z)) as [E2|L2|G2];
    destruct (N.compare_spec (N_of_ascii x) (N_of_ascii z)) as [E3|L3|G3];
    try reflexivity; try discriminate; try lia; try apply IH.
Qed.

Section SortItems.
Context {X : Type}.
Implicit Types (a b e : string * X) (l : list (string * X)).

Lemma leb_false_leb (s1 s2 : string) :
  String.leb s1 s2 = false -> String.leb s2 s1 = true.
Proof.
  intros F. destruct (String.leb_total s1 s2) as [T|T]; congruence.
Qed.

Lemma leb_true_false (s1 s2 : string) :
  s1 <> s2 -> String.leb s1 s2 = true -> String.leb s2 s1 = false.
Proof.
  intros N T. destruct (String.leb s2 s1) eqn:T'; [|reflexivity].
  exfalso. apply N. now apply String.leb_antisym.
Qed.

(** Two items with different keys can be inserted in either order. *)
Lemma insert_item_comm a b l :
  fst a <> fst b ->
  insert_item a (insert_item b l) = insert_item b (insert_item a l).
Proof.
  intros N.
  induction l as [|h rest IH]; simpl.
  - destruct (String.leb (fst a) (fst b)) eqn:T.
    + now rewrite (leb_true_false _ _ N T).
    + now rewrite (leb_false_leb _ _ T).
  - destruct (String.leb (fst b) (fst h)) eqn:BH;
      destruct (String.leb (fst a) (fst h)) eqn:AH; simpl.
    + destruct (String.leb (fst a) (fst b)) eqn:T.
      * rewrite (leb_true_false _ _ N T). simpl. now rewrite BH.
      * rewrite (leb_false_leb _ _ T). simpl. now rewrite AH.
    + assert (T : String.leb (fst a) (fst b) = false).
      { destruct (String.leb (fst a) (fst b)) eqn:T; [|reflexivity].
        now rewrite (string_leb_trans _ _ _ T BH) in AH. }
      rewrite T, BH. simpl. now rewrite AH.
    + assert (T : String.leb (fst b) (fst a) = false).
      { destruct (String.leb (fst b) (fst a)) eqn:T; [|reflexivity].
        now rewrite (string_leb_trans _ _ _ T AH) in BH. }
      rewrite T, AH. simpl. now rewrite BH.
    + rewrite BH, AH. now rewrite IH.
Qed.

(** With pairwise different keys, the sorted items do not depend on the
    order the items come in. *)
Lemma sort_items_permutation l l' :
  Permutation l l' -> NoDup (map fst l) -> sort_items l = sort_items l'.
Proof.
  induction 1 as [|e l l' _ IH|a b l|l l' l'' P1 IH1 P2 IH2]; intros D.
  - reflexivity.
  - simpl. inversion D; subst. now rewrite IH.
  - simpl. apply insert_item_comm.
    inversion D as [|? ? Hn _]; subst. intros E. apply Hn. left. now symmetry.
  - rewrite IH1 by exact D. apply IH2.
    eapply Permutation_NoDup; [|exact D]. now apply Permutation_map.
Qed.

End SortItems.

(** Structurally equal values are encoded to the same text when keys are
    sorted. *)
Lemma json_dumps_struct_eq (v1 : pyval) :
  wf_val v1 -> forall v2, struct_eq v1 v2 ->
  json_dumps true v1 = json_dumps true v2.
Proof.
  induction v1 as [ |b|n|s|items IH|items IH|o] using pyval_nested_ind;
    intros W v2 S; inversion S; subst; try reflexivity.
  - simpl. f_equal. f_equal.
    inversion W as [ | | | | |? WF|]; subst.
    match goal with H : Forall2 struct_eq _ _ |- _ => rename H into F end.
    clear S W. revert IH WF.
    induction F as [|x y l l' Sxy F IHF]; intros IH WF; [reflexivity|].
    inversion IH; subst. inversion WF; subst. simpl.
    f_equal; [now auto | now apply IHF].
  - simpl.
    inversion W as [ | | | | | |? WK WV]; subst.
    match goal with H : Permutation _ _ |- _ => rename H into P end.
    match goal with H : Forall2 _ _ _ |- _ => rename H into F end.
    set (enc := fun kv : string * pyval => (fst kv, json_dumps true (snd kv))).
    assert (E : sort_items (map enc items) = sort_items (map enc d2));
      [|now rewrite E].
    transitivity (sort_items (map enc d1')).
    + apply sort_items_permutation; [now apply Permutation_map|].
      rewrite map_map. simpl. exact WK.
    + f_equal.
      assert (IH' : Forall (fun kv => wf_val (snd kv) ->
                      forall v2, struct_eq (snd kv) v2 ->
                      json_dumps true (snd kv) = json_dumps true v2) d1')
        by (eapply Permutation_Forall; eassumption).
      assert (WV' : Forall (fun kv => wf_val (snd kv)) d1')
        by (eapply Permutation_Forall; eassumption).
      clear - F IH' WV'. revert IH' WV'.
      induction F as [|x y l l' [Kxy Sxy] F IHF]; intros IH' WV';
        [reflexivity|].
      inversion IH'; subst. inversion WV'; subst. simpl.
      f_equal; [|now apply IHF].
      unfold enc. rewrite Kxy. f_equal. now auto.
Qed.


Lemma reads_as_parsed (message structure : pyval) :
  reads_as message structure ->
  match message with
  | PStr s => json_loads s
  | _ => Ok message
  end = Ok structure.
Proof.
  destruct message; simpl; intros R; try (now rewrite R); exact R.
Qed.

Lemma reads_as_wf (message structure : pyval) :
  wf_val message -> reads_as message structure -> wf_val structure.
Proof.
  intros W R. destruct message; simpl in R; subst; try exact W.
  eapply json_loads_wf. exact R.
Qed.



(** * Further properties of the cache *)

Section OrderedDictFilter.
Context {V : Type}.
Implicit Types (d : odict V) (k : string) (v : V).

Lemma od_get_In k v d : od_get k d = Some v -> In (k, v) d.
Proof.
  induction d as [|[k' v'] d IH]; simpl; [discriminate|].
  destruct (String.eqb_spec k k') as [->|N].
  - intros E. inversion E. now left.
  - intros E. right. now apply IH.
Qed.

Lemma od_In_get k v d : od_wf d -> In (k, v) d -> od_get k d = Some v.
Proof.
  unfold od_wf.
  induction d as [|[k' v'] d IH]; simpl; intros W I; [contradiction|].
  inversion W as [|? ? Hn Hd]; subst.
  destruct I as [E|I].
  - inversion E; subst. now rewrite String.eqb_refl.
  - destruct (String.eqb_spec k k') as [->|N]; [|now apply IH].
    exfalso. apply Hn. change k' with (fst (k', v)). now apply in_map.
Qed.

(** Removing a key is keeping the entries of the other keys. *)
Lemma od_pop_filter k d :
  od_wf d -> od_pop k d = filter (fun kv => negb (String.eqb k (fst kv))) d.
Proof.
  unfold od_wf.
  induction d as [|[k' v'] d IH]; simpl; intros W; [reflexivity|].
  inversion W as [|? ? Hn Hd]; subst.
  destruct (String.eqb_spec k k') as [->|N]; simpl.
  - symmetry. apply forallb_filter_id. apply forallb_forall.
    intros [k0 v0] I. simpl. apply negb_true_iff, String.eqb_neq.
    intros ->. apply Hn. change k0 with (fst (k0, v0)). now apply in_map.
  - now rewrite IH.
Qed.

Lemma od_wf_filter (p : string * V -> bool) d : od_wf d -> od_wf (filter p d).
Proof.
  unfold od_wf.
  induction d as [|[k' v'] d IH]; simpl; intros W; [assumption|].
  inversion W as [|? ? Hn Hd]; subst.
  destruct (p (k', v')); simpl; [|now apply IH].
  constructor; [|now apply IH].
  intros I. apply Hn. unfold keys in *. apply in_map_iff in I.
  destruct I as (x & E & I). apply filter_In in I.
  apply in_map_iff. exists x. tauto.
Qed.

Lemma od_get_filter (p : string * V -> bool) k d :
  od_wf d ->
  od_get k (filter p d) =
  match od_get k d with
  | Some v => if p (k, v) then Some v else None
  | None => None
  end.
Proof.
  intros W.
  destruct (od_get k d) as [v|] eqn:G.
  - destruct (p (k, v)) eqn:Pk.
    + apply od_In_get; [now apply od_wf_filter|].
      apply filter_In. split; [now apply od_get_In | exact Pk].
    + destruct (od_get k (filter p d)) as [v'|] eqn:G'; [|reflexivity].
      apply od_get_In, filter_In in G'. destruct G' as [I Pk'].
      rewrite (od_In_get _ _ _ W I) in G. inversion G; subst. congruence.
  - apply od_get_None. apply od_get_None in G.
    intros I. apply G. unfold keys in *. apply in_map_iff in I.
    destruct I as (x & E & I). apply filter_In in I.
    apply in_map_iff. exists x. tauto.
Qed.

Lemma filter_twice {A : Type} (f g : A -> bool) (l : list A) :
  filter f (filter g l) = filter (fun x => f x && g x) l.
Proof.
  induction l as [|x l IH]; simpl; [reflexivity|].
  destruct (g x); simpl.
  - rewrite andb_true_r. destruct (f x); now rewrite IH.
  - now rewrite andb_false_r.
Qed.

(** Removing a list of keys one after the other. *)
Lemma od_pop_all (ks : list string) d :
  od_wf d ->
  fold_left (fun d' k => od_pop k d') ks d =
  filter (fun kv => negb (existsb (String.eqb (fst kv)) ks)) d.
Proof.
  revert d. induction ks as [|k ks IH]; intros d W; simpl.
  - symmetry. apply forallb_filter_id. now apply forallb_forall.
  - rewrite IH by now apply od_wf_pop.
    rewrite (od_pop_filter k d W).
    rewrite filter_twice. apply filter_ext.
    intros [k0 v0]. simpl. rewrite (String.eqb_sym k0 k).
    destruct (String.eqb k k0); simpl; [now rewrite andb_false_r|].
    now rewrite andb_true_r.
Qed.

End OrderedDictFilter.


(** X1: [MemoryCache.delete] never fails.  Afterwards the key is absent, so
    that a check of it at any time answers false without changing the cache;
    every other key keeps its entry; and deleting a key that is not there
    leaves the cache exactly as it was. *)
Theorem delete_contract (key : string) (c : MemoryCache.t)
    (W : MemoryCache.wf c) :
  let out := MemoryCache.delete key c in
  snd out = Ok tt /\
  od_get key (MemoryCache._cache (fst out)) = None /\
  (forall now, MemoryCache.get now key (fst out) = (fst out, Ok false)) /\
  (forall k, k <> key ->
     od_get k (MemoryCache._cache (fst out)) = od_get k (MemoryCache._cache c)) /\
  (od_get key (MemoryCache._cache c) = None -> fst out = c) /\
  MemoryCache.wf (fst out).
Proof.
  cbv zeta. simpl.
  assert (A : od_get key (od_pop key (MemoryCache._cache c)) = None)
    by now apply od_get_pop.
  repeat split.
  - exact A.
  - intros now. now apply get_absent.
  - intros k N. now apply od_get_pop_other.
  - intros G. rewrite (od_pop_absent _ _ G). now destruct c.
  - now apply od_wf_pop.
Qed.

Lemma clean_expired_cache (now : Q) (c : MemoryCache.t) :
  MemoryCache._cache (MemoryCache._clean_expired now c) =
  fold_left (fun d k => od_pop k d)
    (map fst (filter (fun kv => Qltb (snd kv) now) (MemoryCache._cache c)))
    (MemoryCache._cache c).
Proof.
  unfold MemoryCache._clean_expired.
  generalize (map fst (filter (fun kv => Qltb (snd kv) now)
                         (MemoryCache._cache c))).
  intros ks. revert c.
  induction ks as [|k ks IH]; intros c; simpl; [reflexivity|].
  now rewrite IH.
Qed.

Lemma clean_expired_keeps_live_aux (now : Q) (c : MemoryCache.t) (key : string) :
  MemoryCache.wf c ->
  od_get key (MemoryCache._cache (MemoryCache._clean_expired now c)) =
  match od_get key (MemoryCache._cache c) with
  | Some expire => if negb (Qltb expire now) then Some expire else None
  | None => None
  end.
Proof.
  intros W. rewrite clean_expired_cache, od_pop_all by exact W.
  rewrite od_get_filter by exact W.
  destruct (od_get key (MemoryCache._cache c)) as [expire|] eqn:G;
    [|reflexivity].
  simpl.
  destruct (Qltb expire now) eqn:L; simpl.
  - assert (E : existsb (String.eqb key)
                  (map fst (filter (fun kv => Qltb (snd kv) now)
                              (MemoryCache._cache c))) = true).
    { apply existsb_exists. exists key. split; [|apply String.eqb_refl].
      change key with (fst (key, expire)). apply in_map. apply filter_In.
      split; [now apply od_get_In | exact L]. }
    now rewrite E.
  - destruct (existsb (String.eqb key) _) eqn:E; [|reflexivity].
    apply existsb_exists in E. destruct E as (k' & I' & E).
    apply String.eqb_eq in E. subst k'.
    apply in_map_iff in I'. destruct I' as ([k' v'] & E & I'). simpl in E.
    subst k'. apply filter_In in I'. destruct I' as [I' L']. simpl in L'.
    rewrite (od_In_get _ _ _ W I') in G. inversion G; subst. congruence.
Qed.

(** X2: [MemoryCache._clean_expired] removes exactly the entries whose expiry
    instant is strictly less than the current time: what is left is the
    entries that are not expired, with their expiry instants and in their
    order. *)
Theorem clean_expired_keeps_live (now : Q) (c : MemoryCache.t)
    (W : MemoryCache.wf c) :
  MemoryCache._cache (MemoryCache._clean_expired now c) =
  filter (fun kv => negb (Qltb (snd kv) now)) (MemoryCache._cache c).
Proof.
  rewrite clean_expired_cache, od_pop_all by exact W.
  apply filter_ext_in. intros [k v] I. simpl. f_equal.
  destruct (Qltb v now) eqn:L.
  - apply existsb_exists. exists k. split; [|apply String.eqb_refl].
    change k with (fst (k, v)). apply in_map. apply filter_In. now split.
  - destruct (existsb (String.eqb k) _) eqn:E; [|reflexivity].
    apply existsb_exists in E. destruct E as (k' & I' & E).
    apply String.eqb_eq in E. subst k'.
    apply in_map_iff in I'. destruct I' as ([k' v'] & E & I'). simpl in E.
    subst k'. apply filter_In in I'. destruct I' as [I' L']. simpl in L'.
    pose proof (od_In_get _ _ _ W I) as G.
    rewrite (od_In_get _ _ _ W I') in G. inversion G; subst. congruence.
Qed.

(** X3: the sweep is not needed for the answers of the cache: after
    [_clean_expired] at some time, a check of any key at that time or later
    answers what it would have answered without the sweep. *)
Theorem clean_expired_keeps_answers (now later : Q) (key : string)
    (c : MemoryCache.t)
    (W : MemoryCache.wf c) (L : (now <= later)%Q) :
  snd (MemoryCache.get later key (MemoryCache._clean_expired now c)) =
  snd (MemoryCache.get later key c).
Proof.
  unfold MemoryCache.get at 1.
  rewrite clean_expired_keeps_live_aux by exact W.
  unfold MemoryCache.get.
  destruct (od_get key (MemoryCache._cache c)) as [expire|]; [|reflexivity].
  simpl. destruct (Qltb expire now) eqn:E; simpl.
  - apply Qltb_lt in E.
    assert (E' : Qltb expire later = true).
    { apply Qltb_lt. eapply Qlt_le_trans; eassumption. }
    now rewrite E'.
  - destruct (Qltb expire later); reflexivity.
Qed.



(** * Further properties of the deduplicator *)

Lemma od_get_reinsert_other {V : Type} (k key : string) (v : V) (d : odict V) :
  k <> key -> od_get k (od_pop key d ++ [(key, v)]) = od_get k d.
Proof.
  intros N. rewrite od_get_app, od_get_pop_other by exact N.
  destruct (od_get k d); [reflexivity|]. simpl.
  destruct (String.eqb_spec k key); [contradiction | reflexivity].
Qed.



(** X7: a call touches the entry of its own key only.  Over the in-memory
    cache, whatever [is_duplicate] returns or raises, every other key keeps
    its entry and its expiry instant, and the mapping keeps its keys
    apart. *)
Theorem other_keys_untouched (d : Deduplicator) (m : MemoryCache.t)
    (t1 t2 : Q) (message : pyval) (format : string)
    (custom_key : option string) (key : string)
    (C : cache d = memory_cache m)
    (K : derive_cache_key d message format custom_key = Ok key) :
  exists m',
    fst (is_duplicate d t1 t2 message format custom_key) =
      with_cache d (memory_cache m') /\
    (forall k, k <> key ->
       od_get k (MemoryCache._cache m') = od_get k (MemoryCache._cache m)) /\
    (MemoryCache.wf m -> MemoryCache.wf m').
Proof.
  rewrite is_duplicate_outcome. simpl fst.
  rewrite (is_duplicate_try_memory d m t1 t2 _ _ _ key C K).
  unfold memory_step.
  assert (G : exists m1 b,
             MemoryCache.get t1 key m = (m1, Ok b) /\
             (forall k, k <> key ->
                od_get k (MemoryCache._cache m1) =
                od_get k (MemoryCache._cache m)) /\
             (MemoryCache.wf m -> MemoryCache.wf m1)).
  { unfold MemoryCache.get.
    destruct (od_get key (MemoryCache._cache m)) as [expire|].
    - destruct (Qltb expire t1); simpl.
      + eexists. eexists. split; [reflexivity|]. simpl. split.
        * intros k N. now apply od_get_pop_other.
        * apply od_wf_pop.
      + exists m, true. auto.
    - exists m, false. auto. }
  destruct G as (m1 & b & -> & F1 & W1).
  destruct b; [exists m1; auto|].
  destruct (Z.le_gt_cases (ttl_seconds d) 0) as [N|P].
  - rewrite (set_not_positive _ _ _ _ N). exists m1. auto.
  - rewrite (set_positive _ _ _ _ P). eexists. split; [reflexivity|].
    simpl. split.
    + intros k N. rewrite od_get_reinsert_other by exact N. now apply F1.
    + intros W. apply od_wf_reinsert. now apply W1.
Qed.



(** * Further properties of the hasher *)

Lemma try_except_not_Ok {A : Type} (r : result A) (g : exn -> bool)
    (h : exn -> exn) :
  (forall a, r <> Ok a) -> forall a, try_except r g h <> Ok a.
Proof.
  intros N a. destruct r as [x|e|]; simpl.
  - now apply N.
  - destruct (g e); discriminate.
  - discriminate.
Qed.

Lemma bind_not_Ok {A B : Type} (r : result A) (k : A -> result B) :
  (forall x b, k x <> Ok b) -> forall b, bind r k <> Ok b.
Proof.
  intros N b. destruct r as [x|e|]; simpl; [apply N | discriminate..].
Qed.

Lemma hash_message_plain_str (h : MessageHasher) (s : string)
    (message : pyval) (format : string) :
  algorithm h = PlainStr s ->
  forall digest, hash_message h message format <> Ok digest.
Proof.
  intros A.
  assert (B : forall b digest, _hash_bytes h b <> Ok digest)
    by (intros b digest; unfold _hash_bytes; rewrite A; discriminate).
  unfold hash_message.
  destruct (String.eqb (str_lower format) "json").
  - unfold _hash_json. apply try_except_not_Ok.
    apply bind_not_Ok. intros parsed. apply bind_not_Ok. exact B.
  - destruct (String.eqb (str_lower format) "protobuf"); [|discriminate].
    unfold _hash_protobuf. apply try_except_not_Ok.
    destruct (negb (has_SerializeToString message)); [discriminate|].
    apply bind_not_Ok. exact B.
Qed.

(** X9: an algorithm that is no member of the enumeration is found out at
    the first hash, not by the constructor: with it, [is_duplicate] without a
    [custom_key] never returns a verdict, for no message and no format, and
    it leaves the deduplicator and its cache exactly as they were; what it
    raises is a [SerializationError] or a [CacheError]. *)
Theorem unknown_algorithm_never_hashes (d : Deduplicator) (s : string)
    (t1 t2 : Q) (message : pyval) (format : string)
    (A : algorithm (hasher d) = PlainStr s) :
  let out := is_duplicate d t1 t2 message format None in
  fst out = d /\
  (forall verdict, snd out <> Ok verdict) /\
  (forall e, snd out = Raise e ->
             exn_cls e = SerializationError \/ exn_cls e = CacheError).
Proof.
  cbv zeta. rewrite is_duplicate_outcome. unfold is_duplicate_try.
  simpl derive_cache_key.
  pose proof (hash_message_plain_str _ _ message format A) as N.
  destruct (hash_message (hasher d) message format) as [digest|e|]; simpl.
  - exfalso. now apply (N digest).
  - repeat split; [discriminate|].
    intros e' E. inversion E. apply surfaced_typed.
  - repeat split; discriminate.
Qed.

Lemma try_except_bind_Ok {A B : Type} (r : result A) (f : A -> B)
    (g : exn -> bool) (h : exn -> exn) :
  try_except (x <- r ;; Ok (f x)) g h = (x <- try_except r g h ;; Ok (f x)).
Proof.
  destruct r as [x|e|]; simpl; [reflexivity| |reflexivity].
  destruct (g e); reflexivity.
Qed.

(** X10: the algorithm only digests.  For a message and a format, the bytes
    that are digested, or the failure met before any digest, are the same for
    the three algorithms of the enumeration: the choice of the algorithm
    changes the digest taken of those bytes and nothing else. *)
Theorem algorithm_only_digests (sort : bool) (message : pyval)
    (format : string) :
  exists canonical : result string,
    forall a : HashAlgorithm,
      hash_message {| algorithm := Member a; sort_keys := sort |}
        message format
      = (b <- canonical ;; Ok (hexdigest a b)).
Proof.
  unfold hash_message.
  destruct (String.eqb (str_lower format) "json").
  - eexists. intros a. unfold _hash_json, _hash_string, _hash_bytes. simpl.
    match goal with
    | |- try_except (bind ?p ?k) ?g ?h = _ =>
        replace (bind p k)
          with (b <- (parsed <- p ;; json_dumps sort parsed) ;;
                Ok (hexdigest a b))
    end.
    + apply try_except_bind_Ok.
    + destruct (match message with PStr s => json_loads s | _ => Ok message end)
        as [parsed|e|]; reflexivity.
  - destruct (String.eqb (str_lower format) "protobuf").
    + eexists. intros a. unfold _hash_protobuf, _hash_bytes. simpl.
      match goal with
      | |- try_except (if ?c then ?x else bind ?p ?k) ?g ?h = _ =>
          replace (if c then x else bind p k)
            with (b <- (if c then Raise no_SerializeToString else p) ;;
                  Ok (hexdigest a b))
      end.
      * apply try_except_bind_Ok.
      * destruct (negb (has_SerializeToString message)); reflexivity.
    + exists (Raise (unsupported_format (str_lower format))).
      reflexivity.
Qed.

(** X11: the protobuf format.  The bytes that [SerializeToString] returns
    are digested as they are, whatever the key-sort option is; an exception
    that [SerializeToString] raises comes out as a [SerializationError] whose
    cause it is, whatever its class; and so does the [AttributeError] of an
    algorithm that is no member of the enumeration. *)
Theorem protobuf_contract (h : MessageHasher) (o : pyobject)
    (format : string) (J : str_lower format = "protobuf") :
  let out := hash_message h (PObj o) format in
  (forall a b,
      algorithm h = Member a -> SerializeToString o = Some (Ok b) ->
      out = Ok (hexdigest a b)) /\
  (forall e0,
      SerializeToString o = Some (Raise e0) ->
      out = Raise (new_exn_from SerializationError
                     ("Failed to serialize protobuf message: " ++ exn_str e0)
                     e0)) /\
  (forall s b,
      algorithm h = PlainStr s -> SerializeToString o = Some (Ok b) ->
      exists e, out = Raise e /\ exn_cls e = SerializationError /\
                exists e0, exn_cause e = Some e0 /\
                           exn_cls e0 = AttributeError).
Proof.
  cbv zeta. unfold hash_message. rewrite J. simpl.
  unfold _hash_protobuf, _hash_bytes. simpl.
  repeat split.
  - intros a b A S. now rewrite S, A.
  - intros e0 S. now rewrite S.
  - intros s b A S. rewrite S, A. simpl.
    eexists. split; [reflexivity|]. split; [reflexivity|].
    eexists. split; reflexivity.
Qed.


(** * The decoder reads what the encoder writes *)

Lemma append_assoc (a b c : string) : ((a ++ b) ++ c = a ++ (b ++ c))%string.
Proof. induction a as [|x a IH]; simpl; [reflexivity | now rewrite IH]. Qed.

Lemma append_nil_r (a : string) : (a ++ "")%string = a.
Proof. induction a as [|x a IH]; simpl; [reflexivity | now rewrite IH]. Qed.

Lemma length_append (a b : string) :
  String.length (a ++ b) = (String.length a + String.length b)%nat.
Proof. induction a as [|x a IH]; simpl; [reflexivity | now rewrite IH]. Qed.

(** One character, escaped and read back. *)
Lemma scanstring_escape_char (c : ascii) (rest : string) :
  py_scanstring (escape_char c ++ rest) =
  prepend (String c "") (py_scanstring rest).
Proof.
  destruct c as [[|] [|] [|] [|] [|] [|] [|] [|]]; reflexivity.
Qed.

(** A string between quotes, read back from just after the opening quote. *)
Lemma scanstring_escape (s rest : string) :
  py_scanstring (escape s ++ String dquote rest) = Scanned s rest.
Proof.
  induction s as [|c s IH]; simpl; [reflexivity|].
  rewrite append_assoc, scanstring_escape_char, IH. reflexivity.
Qed.

Lemma scanstring_basestring (s rest : string) :
  exists body,
    (encode_basestring s ++ rest)%string = String dquote body /\
    py_scanstring body = Scanned s rest.
Proof.
  exists (escape s ++ String dquote rest)%string. split.
  - unfold encode_basestring. simpl. now rewrite append_assoc.
  - apply scanstring_escape.
Qed.


Lemma digits_step (acc : Z) (c : ascii) (rest : string) :
  is_digit c = true ->
  digits acc (String c rest) =
  digits (10 * acc + Z.of_N (N_of_ascii c - 48)) rest.
Proof. intros D. simpl. now rewrite D. Qed.

Lemma digits_stop (acc : Z) (tail : string) :
  head_is is_digit tail = false -> digits acc tail = (acc, tail).
Proof.
  destruct tail as [|c r]; simpl; [reflexivity|]. now intros ->.
Qed.

Ltac digit_value :=
  match goal with
  | |- context [Z.of_N ?n] =>
      let v := eval vm_compute in (Z.of_N n) in change (Z.of_N n) with v
  end.

(** The digits that [Pos.to_uint] writes, read back with an accumulator. *)
Lemma digits_uint (l : Decimal.uint) (acc : positive) (tail : string) :
  head_is is_digit tail = false ->
  digits (Zpos acc) (NilEmpty.string_of_uint l ++ tail) =
  (Zpos (Pos.of_uint_acc l acc), tail).
Proof.
  intros T. revert acc.
  induction l as [|l IH|l IH|l IH|l IH|l IH|l IH|l IH|l IH|l IH|l IH];
    intros acc; simpl NilEmpty.string_of_uint; simpl append;
    [now apply digits_stop|..];
    rewrite digits_step by reflexivity;
    cbn [Pos.of_uint_acc]; rewrite <- IH; f_equal; digit_value; lia.
Qed.

Lemma to_uint_head (p : positive) :
  match Pos.to_uint p with
  | Decimal.Nil | Decimal.D0 _ => False
  | _ => True
  end.
Proof.
  pose proof (DecimalPos.Unsigned.to_uint_nonnil p) as NN.
  pose proof (DecimalPos.Unsigned.to_uint_nonzero p) as NZ.
  pose proof (DecimalPos.Unsigned.to_of (Pos.to_uint p)) as TO.
  rewrite DecimalPos.Unsigned.of_to in TO. simpl in TO.
  destruct (Pos.to_uint p) as [|l|l|l|l|l|l|l|l|l|l] eqn:E; try exact I.
  - now apply NN.
  - rewrite DecimalFacts.unorm_D0 in TO. unfold Decimal.unorm in TO.
    destruct (Decimal.nzhead l) eqn:H; try discriminate TO.
    + inversion TO; subst. now apply NZ.
    + exact (DecimalFacts.nzhead_nonzero _ _ H).
Qed.


Lemma delimited_facts (tail : string) :
  delimited tail = true ->
  head_is is_digit tail = false /\
  float_follows tail = false /\
  skip_ws tail = tail.
Proof.
  destruct tail as [|c r]; [now repeat split|].
  destruct c as [[|] [|] [|] [|] [|] [|] [|] [|]]; simpl;
    try discriminate; now repeat split.
Qed.

(** The text of an integer, read back. *)
Lemma scan_number_int_repr (n : Z) (tail : string) :
  delimited tail = true ->
  scan_number (int_repr n ++ tail) = Some (Scanned (PInt n) tail).
Proof.
  intros D. destruct (delimited_facts _ D) as (H & F & _).
  unfold int_repr.
  destruct n as [|p|p]; simpl Z.to_int; simpl NilZero.string_of_int.
  - unfold scan_number. simpl. now rewrite F.
  - pose proof (to_uint_head p) as HD.
    pose proof (DecimalPos.Unsigned.of_to p) as OT.
    unfold NilZero.string_of_uint.
    destruct (Pos.to_uint p) as [|l|l|l|l|l|l|l|l|l|l]; try contradiction;
      simpl NilEmpty.string_of_uint; simpl append; unfold scan_number;
      cbn -[digits float_follows Pos.of_uint_acc];
      rewrite (digits_uint l _ tail H), F;
      simpl in OT; inversion OT; reflexivity.
  - pose proof (to_uint_head p) as HD.
    pose proof (DecimalPos.Unsigned.of_to p) as OT.
    unfold NilZero.string_of_uint.
    destruct (Pos.to_uint p) as [|l|l|l|l|l|l|l|l|l|l]; try contradiction;
      simpl NilEmpty.string_of_uint; simpl append; unfold scan_number;
      cbn -[digits float_follows Pos.of_uint_acc];
      rewrite (digits_uint l _ tail H), F;
      simpl in OT; inversion OT; reflexivity.
Qed.

Lemma int_repr_head (n : Z) :
  exists c rest,
    int_repr n = String c rest /\ (is_char 45 c || is_digit c) = true.
Proof.
  unfold int_repr.
  destruct n as [|p|p]; simpl Z.to_int; simpl NilZero.string_of_int.
  - eexists. eexists. split; reflexivity.
  - pose proof (to_uint_head p) as HD. unfold NilZero.string_of_uint.
    destruct (Pos.to_uint p); try contradiction;
      eexists; eexists; split; reflexivity.
  - eexists. eexists. split; reflexivity.
Qed.

Lemma number_head (c : ascii) :
  (is_char 45 c || is_digit c) = true ->
  is_ws c = false /\ is_char 93 c = false /\ is_char 125 c = false /\
  is_char 34 c = false /\ is_char 123 c = false /\ is_char 91 c = false /\
  Ascii.eqb "n" c = false /\ Ascii.eqb "t" c = false /\
  Ascii.eqb "f" c = false.
Proof.
  destruct c as [[|] [|] [|] [|] [|] [|] [|] [|]]; simpl;
    try discriminate; now repeat split.
Qed.


Lemma skip_ws_value (text : string) : starts_value text -> skip_ws text = text.
Proof.
  intros (c & rest & -> & W & _). simpl. now rewrite W.
Qed.

Lemma skip_ws_space (text : string) :
  starts_value text -> skip_ws (String " " text) = text.
Proof. intros S. simpl. now apply skip_ws_value. Qed.

Lemma starts_value_append (text more : string) :
  starts_value text -> starts_value (text ++ more).
Proof.
  intros (c & rest & -> & H). exists c, (rest ++ more)%string.
  split; [reflexivity | exact H].
Qed.

Lemma sequence_map_Ok {A B : Type} (f : A -> result B) (x : A) (l : list A)
    (parts : list B) :
  sequence (map f (x :: l)) = Ok parts ->
  exists p rest, parts = p :: rest /\ f x = Ok p /\
                 sequence (map f l) = Ok rest.
Proof.
  simpl. destruct (f x) as [p|e|]; simpl; try discriminate.
  destruct (sequence (map f l)) as [rest|e|]; simpl; try discriminate.
  intros E. inversion E. now exists p, rest.
Qed.

(** The text of a value starts a value. *)
Lemma json_dumps_head (sort : bool) (v : pyval) (text : string) :
  json_dumps sort v = Ok text -> starts_value text.
Proof.
  destruct v as [ |b|n|s|items|items|o]; simpl.
  - intros E. inversion E. now repeat eexists.
  - destruct b; intros E; inversion E; now repeat eexists.
  - intros E. inversion E.
    destruct (int_repr_head n) as (c & rest & -> & H).
    destruct (number_head c H) as (W & B & C & _).
    exists c, rest. now repeat split.
  - intros E. inversion E. now repeat eexists.
  - destruct (sequence _) as [parts|e|]; simpl; try discriminate.
    intros E. inversion E. now repeat eexists.
  - destruct (sequence _) as [parts|e|]; simpl; try discriminate.
    intros E. inversion E. now repeat eexists.
  - discriminate.
Qed.

Lemma scan_once_number (f : nat) (c : ascii) (rest : string)
    (x : scanned pyval) :
  (is_char 45 c || is_digit c) = true ->
  scan_number (String c rest) = Some x ->
  scan_once (S f) (String c rest) = x.
Proof.
  intros H N. destruct (number_head c H) as (_ & _ & _ & Q & B & K & E1 & E2 & E3).
  cbn -[strip_prefix is_char skip_ws py_scanstring scan_number
        is_float_constant od_setitem app].
  rewrite Q, B, K. cbn [strip_prefix]. rewrite E1, E2, E3. now rewrite N.
Qed.

Lemma scan_once_string (f : nat) (s tail : string) :
  scan_once (S f) (encode_basestring s ++ tail) = Scanned (PStr s) tail.
Proof.
  destruct (scanstring_basestring s tail) as (body & -> & B).
  cbn -[strip_prefix skip_ws py_scanstring scan_number
        is_float_constant od_setitem app].
  now rewrite B.
Qed.

Lemma od_setitem_fresh {V : Type} (k : string) (v : V) (d : odict V) :
  od_get k d = None -> od_setitem k v d = d ++ [(k, v)].
Proof.
  induction d as [|[k' v'] d IH]; simpl; [reflexivity|].
  destruct (String.eqb_spec k k'); [discriminate|].
  intros G. now rewrite IH.
Qed.

Lemma insert_item_map {X Y : Type} (g : X -> Y) (e : string * X)
    (l : list (string * X)) :
  insert_item (fst e, g (snd e)) (map (fun kv => (fst kv, g (snd kv))) l) =
  map (fun kv => (fst kv, g (snd kv))) (insert_item e l).
Proof.
  induction l as [|h rest IH]; simpl; [reflexivity|].
  destruct (String.leb (fst e) (fst h)); simpl; [reflexivity|].
  now rewrite IH.
Qed.

(** Sorting reads keys only. *)
Lemma sort_items_map {X Y : Type} (g : X -> Y) (l : list (string * X)) :
  sort_items (map (fun kv => (fst kv, g (snd kv))) l) =
  map (fun kv => (fst kv, g (snd kv))) (sort_items l).
Proof.
  induction l as [|e rest IH]; simpl; [reflexivity|].
  now rewrite IH, insert_item_map.
Qed.


Lemma JSONArray_step (f : nat) (s : string) (values : list pyval)
    (value : pyval) (r : string) :
  scan_once f s = Scanned value r ->
  JSONArray (S f) s values =
  match skip_ws r with
  | String c r1 =>
      if is_char 93 c then Scanned (PList (values ++ [value])) r1
      else if is_char 44 c then JSONArray f (skip_ws r1) (values ++ [value])
      else Malformed "Expecting ',' delimiter"
  | EmptyString => Malformed "Expecting ',' delimiter"
  end.
Proof.
  intros H.
  cbn -[strip_prefix is_char skip_ws py_scanstring scan_number
        is_float_constant od_setitem app].
  now rewrite H.
Qed.

Lemma JSONObject_step (f : nat) (body : string) (pairs : odict pyval)
    (key : string) (r1 : string) (value : pyval) (r2 : string) :
  py_scanstring body = Scanned key (String ":" r1) ->
  scan_once f (skip_ws r1) = Scanned value r2 ->
  JSONObject (S f) body pairs =
  match skip_ws r2 with
  | String c2 r3 =>
      if is_char 125 c2 then Scanned (PDict (od_setitem key value pairs)) r3
      else if is_char 44 c2 then
        match skip_ws r3 with
        | String c3 r4 =>
            if is_char 34 c3
            then JSONObject f r4 (od_setitem key value pairs)
            else Malformed "Expecting property name enclosed in double quotes"
        | EmptyString =>
            Malformed "Expecting property name enclosed in double quotes"
        end
      else Malformed "Expecting ',' delimiter"
  | EmptyString => Malformed "Expecting ',' delimiter"
  end.
Proof.
  intros K V.
  cbn -[strip_prefix is_char skip_ws py_scanstring scan_number
        is_float_constant od_setitem app].
  rewrite K. cbn [skip_ws]. change (is_ws ":") with false. cbn iota.
  change (is_char 58 ":") with true. cbn iota.
  now rewrite V.
Qed.

Lemma join_cons (sep p : string) (q : string) (rest : list string) :
  join sep (p :: q :: rest) = (p ++ sep ++ join sep (q :: rest))%string.
Proof. reflexivity. Qed.

Lemma join_head (sort : bool) (x : pyval) (items : list pyval)
    (parts : list string) :
  sequence (map (json_dumps sort) (x :: items)) = Ok parts ->
  starts_value (join ", " parts).
Proof.
  intros S. apply sequence_map_Ok in S. destruct S as (p & rest & -> & D & _).
  apply json_dumps_head in D.
  destruct rest; [exact D|]. rewrite join_cons. now apply starts_value_append.
Qed.

(** The items of a list, read back one after the other. *)
Lemma array_loop (sort : bool) (items : list pyval) :
  Forall (reads_back sort) items ->
  forall (parts : list string) (f : nat) (acc : list pyval) (tail : string),
    items <> [] ->
    sequence (map (json_dumps sort) items) = Ok parts ->
    (String.length (join ", " parts) + 1 <= f)%nat ->
    delimited tail = true ->
    JSONArray f (join ", " parts ++ String "]" tail) acc =
    Scanned (PList (acc ++ map (canonical sort) items)) tail.
Proof.
  induction 1 as [|x rest Px Frest IH]; intros parts f acc tail NE S L D;
    [contradiction|].
  apply sequence_map_Ok in S. destruct S as (px & prest & -> & Dx & Srest).
  destruct f as [|f]; [lia|].
  destruct rest as [|y rest'].
  - simpl in Srest. inversion Srest; subst prest. cbn [join] in *.
    rewrite (JSONArray_step f _ acc (canonical sort x) (String "]" tail)).
    + reflexivity.
    + apply Px; [exact Dx | lia | reflexivity].
  - pose proof (join_head _ _ _ _ Srest) as HJ.
    destruct prest as [|py prest'];
      [apply sequence_map_Ok in Srest;
       destruct Srest as (? & ? & E & _); discriminate|].
    rewrite join_cons in *. rewrite length_append, length_append in L.
    cbn [String.length] in L.
    rewrite !append_assoc. cbn [append].
    rewrite (JSONArray_step f _ acc (canonical sort x)
               (String "," (String " "
                  (join ", " (py :: prest') ++ String "]" tail)))).
    + cbn [skip_ws]. change (is_ws ",") with false. cbn iota.
      change (is_char 93 ",") with false. change (is_char 44 ",") with true.
      cbn iota.
      rewrite skip_ws_space by now apply starts_value_append.
      rewrite (IH (py :: prest') f (acc ++ [canonical sort x]) tail);
        [|discriminate | exact Srest | lia | exact D].
      now rewrite <- app_assoc.
    + apply Px; [exact Dx | lia | reflexivity].
Qed.


Lemma encode_item_Ok (sort : bool) (k : string) (x : pyval) (p : string) :
  encode_item (k, json_dumps sort x) = Ok p ->
  exists tx,
    json_dumps sort x = Ok tx /\
    p = String dquote
          (escape k ++ String dquote (String ":" (String " " tx)))%string.
Proof.
  unfold encode_item. simpl.
  destruct (json_dumps sort x) as [tx|e|]; simpl; try discriminate.
  intros E. inversion E. exists tx. split; [reflexivity|].
  unfold encode_basestring. cbn [append]. now rewrite !append_assoc.
Qed.

(** The items of a dict, read back one after the other into the pairs read
    so far, whose keys are other keys. *)
Lemma object_loop (sort : bool) (l : odict pyval) :
  Forall (fun kv => reads_back sort (snd kv)) l ->
  forall (parts : list string) (f : nat) (acc : odict pyval) (tail : string),
    l <> [] ->
    sequence
      (map encode_item
         (map (fun kv => (fst kv, json_dumps sort (snd kv))) l)) = Ok parts ->
    (forall kv, In kv l -> od_get (fst kv) acc = None) ->
    od_wf l ->
    (String.length (join ", " parts) + 1 <= f)%nat ->
    delimited tail = true ->
    exists body,
      join ", " parts = String dquote body /\
      JSONObject f (body ++ String "}" tail) acc =
      Scanned
        (PDict (acc ++ map (fun kv => (fst kv, canonical sort (snd kv))) l))
        tail.
Proof.
  induction 1 as [|[k x] rest Px Frest IH];
    intros parts f acc tail NE S A W L D; [contradiction|].
  rewrite map_map in S. apply sequence_map_Ok in S.
  destruct S as (p & prest & -> & Dp & Srest). rewrite <- map_map in Srest.
  simpl in Dp. apply encode_item_Ok in Dp. destruct Dp as (tx & Dx & ->).
  simpl in Px.
  assert (Ak : od_get k acc = None) by (apply (A (k, x)); now left).
  inversion W as [|? ? Hn Hd]; subst.
  destruct f as [|f]; [lia|].
  destruct rest as [|[k' y] rest'].
  - simpl in Srest. inversion Srest; subst prest. cbn [join] in *.
    eexists. split; [reflexivity|].
    cbn [String.length] in L. rewrite length_append in L.
    cbn [String.length] in L.
    rewrite !append_assoc. cbn [append].
    rewrite (JSONObject_step f _ acc k
               (String " " (tx ++ String "}" tail))
               (canonical sort x) (String "}" tail)).
    + cbn [skip_ws]. change (is_ws "}") with false. cbn iota.
      change (is_char 125 "}") with true. cbn iota.
      now rewrite (od_setitem_fresh _ _ _ Ak).
    + apply scanstring_escape.
    + rewrite skip_ws_space
        by (apply starts_value_append; eapply json_dumps_head; exact Dx).
      apply Px; [exact Dx | lia | reflexivity].
  - destruct prest as [|py prest'].
    { rewrite map_map in Srest. apply sequence_map_Ok in Srest.
      destruct Srest as (? & ? & E & _). discriminate. }
    rewrite join_cons in L. cbn [String.length] in L.
    rewrite !length_append in L. cbn [String.length] in L.
    rewrite !length_append in L. cbn [String.length] in L.
    destruct (IH (py :: prest') f (acc ++ [(k, canonical sort x)]) tail)
      as (body' & J & R).
    + discriminate.
    + exact Srest.
    + intros kv I. rewrite od_get_app, (A kv) by now right.
      simpl. destruct (String.eqb_spec (fst kv) k) as [E|N]; [|reflexivity].
      exfalso. apply Hn. rewrite <- E. now apply in_map.
    + exact Hd.
    + lia.
    + exact D.
    + rewrite join_cons, J. eexists. split; [reflexivity|].
      rewrite !append_assoc. cbn [append].
      rewrite (JSONObject_step f _ acc k
                 (String " "
                    (tx ++ String "," (String " "
                       (String dquote (body' ++ String "}" tail)))))
                 (canonical sort x)
                 (String "," (String " "
                    (String dquote (body' ++ String "}" tail))))).
      * cbn [skip_ws]. change (is_ws ",") with false. cbn iota.
        change (is_char 125 ",") with false.
        change (is_char 44 ",") with true. cbn iota.
        cbn [skip_ws]. change (is_ws " ") with true. cbn iota.
        change (is_ws dquote) with false. cbn iota.
        change (is_char 34 dquote) with true. cbn iota.
        now rewrite (od_setitem_fresh _ _ _ Ak), R, <- app_assoc.
      * apply scanstring_escape.
      * rewrite skip_ws_space
          by (apply starts_value_append; eapply json_dumps_head; exact Dx).
        apply Px; [exact Dx | lia | reflexivity].
Qed.


Lemma scan_once_array (f : nat) (r : string) :
  scan_once (S f) (String "[" r) =
  match skip_ws r with
  | String c1 r1 =>
      if is_char 93 c1 then Scanned (PList []) r1
      else JSONArray f (String c1 r1) []
  | EmptyString => Malformed "Expecting value"
  end.
Proof. reflexivity. Qed.

Lemma scan_once_object (f : nat) (r : string) :
  scan_once (S f) (String "{" r) =
  match skip_ws r with
  | String c1 r1 =>
      if is_char 125 c1 then Scanned (PDict []) r1
      else if is_char 34 c1 then JSONObject f r1 []
      else Malformed "Expecting property name enclosed in double quotes"
  | EmptyString =>
      Malformed "Expecting property name enclosed in double quotes"
  end.
Proof. reflexivity. Qed.

(** The order in which the encoder writes the items of a dict. *)
Lemma written_order (sort : bool) (items : odict pyval) :
  exists l,
    Permutation items l /\
    (if sort
     then sort_items (map (fun kv => (fst kv, json_dumps sort (snd kv))) items)
     else map (fun kv => (fst kv, json_dumps sort (snd kv))) items) =
    map (fun kv => (fst kv, json_dumps sort (snd kv))) l /\
    (if sort
     then sort_items (map (fun kv => (fst kv, canonical sort (snd kv))) items)
     else map (fun kv => (fst kv, canonical sort (snd kv))) items) =
    map (fun kv => (fst kv, canonical sort (snd kv))) l.
Proof.
  destruct sort.
  - exists (sort_items items). split; [|split].
    + symmetry. apply sort_items_perm.
    + apply sort_items_map.
    + apply sort_items_map.
  - exists items. now repeat split.
Qed.

(** Every value whose dicts keep their keys apart is read back from its
    text. *)
Lemma json_dumps_reads_back (sort : bool) (v : pyval) :
  wf_val v -> reads_back sort v.
Proof.
  induction v as [ |b|n|s|items IH|items IH|o] using pyval_nested_ind;
    intros W text f tail E L D; simpl in E.
  - inversion E; subst. destruct f; [simpl in L; lia | reflexivity].
  - destruct b; inversion E; subst;
      (destruct f; [simpl in L; lia | reflexivity]).
  - inversion E; subst.
    destruct (int_repr_head n) as (c & rest & H & N).
    pose proof (scan_number_int_repr n tail D) as SN.
    rewrite H in *. destruct f; [simpl in L; lia|].
    now apply scan_once_number.
  - inversion E; subst. destruct f; [simpl in L; lia|].
    apply scan_once_string.
  - destruct (sequence (map (json_dumps sort) items)) as [parts|e|] eqn:S;
      simpl in E; try discriminate.
    inversion E; subst. cbn [append String.length] in *.
    destruct f; [lia|].
    rewrite append_assoc. cbn [append]. rewrite scan_once_array.
    inversion W as [ | | | | |? WF|]; subst.
    assert (F : Forall (reads_back sort) items).
    { rewrite Forall_forall in *. intros x I. apply IH; auto. }
    destruct items as [|x rest].
    + simpl in S. inversion S; subst. reflexivity.
    + pose proof (join_head _ _ _ _ S) as HJ.
      pose proof (starts_value_append _ (String "]" tail) HJ) as HT.
      rewrite (skip_ws_value _ HT).
      destruct HT as (c1 & r1 & ET & _ & B & _). rewrite ET, B, <- ET.
      rewrite length_append in L. cbn [String.length] in L.
      apply (array_loop sort (x :: rest) F parts f [] tail);
        [discriminate | exact S | lia | exact D].
  - destruct (written_order sort items) as (l & P & EO & EC).
    rewrite EO in E.
    assert (EV : canonical sort (PDict items) =
                 PDict (map (fun kv => (fst kv, canonical sort (snd kv))) l))
      by (rewrite <- EC; reflexivity).
    rewrite EV.
    destruct (sequence _) as [parts|e|] eqn:S; simpl in E; try discriminate.
    inversion E; subst. cbn [append String.length] in *.
    destruct f; [lia|].
    rewrite append_assoc. cbn [append]. rewrite scan_once_object.
    inversion W as [ | | | | | |? WK WV]; subst.
    assert (F : Forall (fun kv => reads_back sort (snd kv)) l).
    { apply (Permutation_Forall P).
      rewrite Forall_forall in *. intros x I. apply IH; auto. }
    assert (WL : od_wf l).
    { unfold od_wf, keys in *. eapply Permutation_NoDup; [|exact WK].
      now apply Permutation_map. }
    destruct l as [|kv rest].
    + simpl in S. inversion S; subst. reflexivity.
    + rewrite length_append in L. cbn [String.length] in L.
      destruct (object_loop sort (kv :: rest) F parts f [] tail)
        as (body & J & R);
        [discriminate | exact S | reflexivity | exact WL | lia | exact D |].
      rewrite J. cbn [append skip_ws].
      change (is_ws dquote) with false. cbn iota.
      change (is_char 125 dquote) with false.
      change (is_char 34 dquote) with true. cbn iota.
      exact R.
  - discriminate.
Qed.

(** The decoder reads the text of a value back as the value, its dicts in
    the order of their keys when the text was written with sorted keys. *)
Lemma json_loads_dumps (sort : bool) (v : pyval) (text : string) :
  wf_val v -> json_dumps sort v = Ok text ->
  json_loads text = Ok (canonical sort v).
Proof.
  intros W E. unfold json_loads.
  rewrite (skip_ws_value _ (json_dumps_head _ _ _ E)).
  rewrite <- (append_nil_r text) at 2.
  rewrite (json_dumps_reads_back sort v W text _ "" E);
    [reflexivity | lia | reflexivity].
Qed.


Lemma canonical_unsorted (v : pyval) : canonical false v = v.
Proof.
  induction v as [ |b|n|s|items IH|items IH|o] using pyval_nested_ind;
    try reflexivity; simpl; f_equal.
  - induction IH as [|x l E _ IHl]; simpl; [reflexivity|].
    now rewrite E, IHl.
  - induction IH as [|[k x] l E _ IHl]; simpl; [reflexivity|].
    simpl in E. now rewrite E, IHl.
Qed.

Lemma canonical_struct_eq (sort : bool) (v : pyval) :
  struct_eq v (canonical sort v).
Proof.
  induction v as [ |b|n|s|items IH|items IH|o] using pyval_nested_ind;
    try (simpl; constructor).
  - induction IH as [|x l E _ IHl]; simpl; constructor; assumption.
  - destruct (written_order sort items) as (l & P & _ & EC).
    assert (EV : canonical sort (PDict items) =
                 PDict (map (fun kv => (fst kv, canonical sort (snd kv))) l))
      by (rewrite <- EC; reflexivity).
    rewrite EV. apply se_dict with (d1' := l); [exact P|].
    pose proof (Permutation_Forall P IH) as F. clear - F.
    induction F as [|x l' E _ IHl]; simpl; constructor; auto.
Qed.


End Hashing.


(** * Instances and counterexamples *)

Lemma sample_cache_wf : MemoryCache.wf sample_cache.
Proof.
  unfold MemoryCache.wf, od_wf. simpl.
  repeat constructor; simpl; intuition discriminate.
Qed.

(** C3 at an instance: in [sample_cache] the key [dedup:j] expired at 3, and
    a check at 10 answers false and removes it. *)
Lemma get_contract_witness :
  snd (MemoryCache.get 10 "dedup:j" sample_cache) = Ok false /\
  MemoryCache._cache (fst (MemoryCache.get 10 "dedup:j" sample_cache)) =
    [("dedup:k", 12%Q)].
Proof.
  destruct (get_contract 10 "dedup:j" sample_cache sample_cache_wf)
    as (_ & _ & _ & _ & H).
  destruct (H 3%Q eq_refl eq_refl) as (R & E & _).
  split; [exact R | exact E].
Defined.

(** C3 as the specification words it fails at the expiry instant itself: the
    entry of [dedup:k] expires at 12, a check at 12 answers true, and 12 is
    not strictly less than 12. *)
Lemma get_strict_liveness_counterexample :
  snd (MemoryCache.get 12 "dedup:k" sample_cache) = Ok true /\
  ~ MemoryCache.live_strict 12 "dedup:k" sample_cache.
Proof.
  split; [reflexivity|].
  intros (expire & G & L). simpl in G. inversion G; subst.
  revert L. apply Qlt_irrefl.
Qed.




(** C4 at an instance: the key [dedup:k] of [sample_cache] is live at 10, the
    call returns true and nothing changes. *)
Lemma duplicate_leaves_cache_unchanged_witness :
  let d := memory_deduplicator 5 sample_cache "dedup:" in
  let out :=
    is_duplicate example_digest d 10 10 sample_message "json" (Some "k") in
  snd out = Ok true /\ fst out = d.
Proof.
  cbv zeta. split; [reflexivity|].
  exact (proj1 (duplicate_leaves_cache_unchanged example_digest
                  (memory_deduplicator 5 sample_cache "dedup:") _
                  sample_cache 10 10 sample_message "json" (Some "k")
                  eq_refl eq_refl)).
Defined.

(** C6 at an instance: the custom key [j], whose old entry expired at 3, is
    recorded at 10 for one message and found at 12 for another, which is not
    even serializable. *)
Lemma custom_key_overrides_content_witness :
  let d := memory_deduplicator 5 sample_cache "dedup:" in
  let other := PObj {| type_name := "set"; SerializeToString := None |} in
  exists d',
    is_duplicate example_digest d 10 10 sample_message "json" (Some "j")
      = (d', Ok false) /\
    is_duplicate example_digest d' 12 12 other "protobuf" (Some "j")
      = (d', Ok true).
Proof.
  cbv zeta. eexists. split; [reflexivity|].
  refine (proj2 (proj2 (custom_key_overrides_content example_digest
            (memory_deduplicator 5 sample_cache "dedup:") _ sample_cache
            10 10 12 12 sample_message _ "json" "protobuf" "j"
            eq_refl sample_cache_wf)) eq_refl eq_refl).
Defined.

(** C7 at an instance: with a TTL of 0 the insert fails after the check
    removed the expired entry of [dedup:j]; the call raises a [CacheError]
    and the key is absent. *)
Lemma failed_call_keeps_state_witness :
  let d := memory_deduplicator 0 sample_cache "dedup:" in
  let m1 := MemoryCache.Build [("dedup:k", 12%Q)] in
  (exists e,
      is_duplicate example_digest d 10 10 sample_message "json" (Some "j")
        = (with_cache d (memory_cache m1), Raise e) /\
      exn_cls e = CacheError) /\
  od_get "dedup:j" (MemoryCache._cache m1) = None.
Proof.
  cbv zeta.
  destruct (failed_call_keeps_state example_digest
              (memory_deduplicator 0 sample_cache "dedup:") sample_cache
              10 10 sample_message "json" (Some "j")
              eq_refl sample_cache_wf) as [_ H].
  destruct (H "dedup:j" (MemoryCache.Build [("dedup:k", 12%Q)])
              eq_refl eq_refl (ex_intro _ _ eq_refl)) as (E & A & _).
  split; assumption.
Defined.


Lemma sample_message_wf : wf_val sample_message.
Proof.
  apply wf_dict.
  - unfold od_wf. simpl. repeat constructor; simpl; intuition discriminate.
  - repeat constructor.
Qed.

Lemma sample_message_parsed : struct_eq sample_message sample_parsed.
Proof.
  apply se_dict with (d1' := [("b", PList [PInt 2; PStr "x"]); ("a", PInt 1)]).
  - apply perm_swap.
  - repeat constructor.
Qed.



(** C9 as the specification words it fails for the algorithm: a name outside
    the enumeration is accepted by the constructor and kept. *)
Lemma init_unknown_algorithm_counterexample :
  exists d,
    __init__ (PInt 60) None (PlainStr "sha512") "dedup:" = Ok d /\
    algorithm (hasher d) = PlainStr "sha512".
Proof.
  eexists. split; reflexivity.
Qed.


(** ** The scenarios of [tests/test_basic.py] on the model *)

Example test_duplicate_detection :
  let message := PDict [("id", PStr "123"); ("data", PStr "test")] in
  run example_digest test_deduper
    [(0%Q, message, None); (1 # 10, message, None)]
  = [Ok false; Ok true].
Proof. reflexivity. Qed.

Example test_ttl_expiration :
  let message := PDict [("id", PStr "456"); ("data", PStr "test-ttl")] in
  run example_digest test_deduper
    [(0%Q, message, None); (1 # 10, message, None); (12 # 10, message, None)]
  = [Ok false; Ok true; Ok false].
Proof. reflexivity. Qed.

Example test_different_messages :
  let message1 := PDict [("id", PStr "1"); ("data", PStr "test1")] in
  let message2 := PDict [("id", PStr "2"); ("data", PStr "test2")] in
  run example_digest test_deduper
    [(0%Q, message1, None); (0%Q, message2, None);
     (1 # 10, message1, None); (1 # 10, message2, None)]
  = [Ok false; Ok false; Ok true; Ok true].
Proof. reflexivity. Qed.

Example test_custom_key :
  let message1 := PDict [("id", PStr "1"); ("data", PStr "test1")] in
  let message2 := PDict [("id", PStr "2"); ("data", PStr "test2")] in
  run example_digest test_deduper
    [(0%Q, message1, Some "my-custom-key"); (1 # 10, message2, Some "my-custom-key")]
  = [Ok false; Ok true].
Proof. reflexivity. Qed.

Example test_clear_cache :
  let message := PDict [("id", PStr "789"); ("data", PStr "test-clear")] in
  let '(d1, r1) := is_duplicate example_digest test_deduper 0 0 message "json" None in
  let '(d2, r2) := is_duplicate example_digest d1 (1 # 10) (1 # 10) message "json" None in
  let '(d3, _) := Deduplicator_clear d2 in
  let '(_, r3) := is_duplicate example_digest d3 (2 # 10) (2 # 10) message "json" None in
  [r1; r2; r3] = [Ok false; Ok true; Ok false].
Proof. reflexivity. Qed.

Example test_json_serialization :
  let message :=
    PDict [("id", PStr "json-1");
           ("data", PList [PInt 1; PInt 2; PInt 3]);
           ("nested", PDict [("a", PInt 1); ("b", PInt 2)])] in
  let json_str :=
    text "{'id': 'json-1', 'data': [1, 2, 3], 'nested': {'a': 1, 'b': 2}}" in
  let different_order :=
    text "{'nested': {'b': 2, 'a': 1}, 'id': 'json-1', 'data': [1, 2, 3]}" in
  run example_digest test_deduper
    [(0%Q, message, None); (1 # 10, message, None);
     (2 # 10, PStr json_str, None); (3 # 10, PStr different_order, None)]
  = [Ok false; Ok true; Ok true; Ok true].
Proof. reflexivity. Qed.

(** The scenario of the specification: an insert with a TTL of 0 fails. *)
Example insert_with_ttl_zero :
  snd (MemoryCache.set 0 "k" 0 MemoryCache.new) =
  Raise (new_exn CacheError "TTL must be a positive number").
Proof. reflexivity. Qed.


(** ** Failures, at instances *)

Example unsupported_format_surfaces :
  is_duplicate example_digest test_deduper 0 0 sample_message "XML" None
  = (test_deduper, Raise (unsupported_format "xml")).
Proof. reflexivity. Qed.

Example malformed_text_surfaces :
  is_duplicate example_digest test_deduper 0 0 (PStr "{'id': 1}") "json" None
  = (test_deduper,
     Raise (new_exn_from SerializationError
              "Failed to serialize message to JSON: Expecting property name enclosed in double quotes"
              (new_exn JSONDecodeError
                 "Expecting property name enclosed in double quotes"))).
Proof. reflexivity. Qed.

Example unserializable_value_surfaces :
  let o := {| type_name := "set"; SerializeToString := None |} in
  snd (is_duplicate example_digest test_deduper 0 0
         (PDict [("ids", PObj o)]) "json" None)
  = Raise (new_exn_from SerializationError
             "Failed to serialize message to JSON: Object of type set is not JSON serializable"
             (not_serializable o)).
Proof. reflexivity. Qed.

(** An algorithm outside the enumeration passes the constructor and fails
    at the first hash, with an [AttributeError] that [is_duplicate] wraps. *)
Example unknown_algorithm_is_wrapped :
  exists d,
    __init__ (PInt 60) None (PlainStr "sha512") "dedup:" = Ok d /\
    snd (is_duplicate example_digest d 0 0 sample_message "json" None)
    = Raise (new_exn_from CacheError
               "Unexpected error during deduplication: 'str' object has no attribute 'value'"
               (new_exn AttributeError "'str' object has no attribute 'value'")).
Proof. eexists. split; reflexivity. Qed.

Example init_rejects_bad_ttl :
  let refused :=
    Raise (new_exn ConfigurationError "ttl_seconds must be a positive integer") in
  __init__ (PInt 0) None (Member SHA256) "dedup:" = refused /\
  __init__ (PInt (-5)) None (Member SHA256) "dedup:" = refused /\
  __init__ (PStr "60") None (Member SHA256) "dedup:" = refused /\
  __init__ PNone None (Member SHA256) "dedup:" = refused /\
  __init__ (PBool false) None (Member SHA256) "dedup:" = refused.
Proof. repeat split. Qed.

Example init_default_cache :
  __init__ (PInt 60) None (Member SHA256) "dedup:"
  = Ok (memory_deduplicator 60 MemoryCache.new "dedup:").
Proof. reflexivity. Qed.


(** ** Further instances *)

(** X1 at an instance: deleting [dedup:k] from [sample_cache]. *)
Lemma delete_contract_witness :
  let c := fst (MemoryCache.delete "dedup:k" sample_cache) in
  od_get "dedup:k" (MemoryCache._cache c) = None /\
  od_get "dedup:j" (MemoryCache._cache c) = Some 3%Q.
Proof.
  cbv zeta.
  destruct (delete_contract "dedup:k" sample_cache sample_cache_wf)
    as (_ & A & _ & O & _).
  split; [exact A|]. rewrite O; [reflexivity | discriminate].
Defined.

(** X2 at an instance: a sweep of [sample_cache] at 10 leaves the entry that
    expires at 12. *)
Lemma clean_expired_keeps_live_witness :
  MemoryCache._cache (MemoryCache._clean_expired 10 sample_cache) =
  [("dedup:k", 12%Q)].
Proof.
  rewrite (clean_expired_keeps_live 10 sample_cache sample_cache_wf).
  reflexivity.
Defined.

(** X3 at an instance: a check at 11 after a sweep at 10. *)
Lemma clean_expired_keeps_answers_witness :
  snd (MemoryCache.get 11 "dedup:k"
         (MemoryCache._clean_expired 10 sample_cache)) =
  snd (MemoryCache.get 11 "dedup:k" sample_cache).
Proof.
  apply (clean_expired_keeps_answers 10 11 "dedup:k" sample_cache
           sample_cache_wf).
  unfold Qle. simpl. lia.
Defined.




(** X7 at an instance: a call for [dedup:j] leaves the entry of [dedup:k]. *)
Lemma other_keys_untouched_witness :
  exists m',
    fst (is_duplicate example_digest
           (memory_deduplicator 5 sample_cache "dedup:")
           10 10 sample_message "json" (Some "j")) =
      memory_deduplicator 5 m' "dedup:" /\
    od_get "dedup:k" (MemoryCache._cache m') = Some 12%Q.
Proof.
  destruct (other_keys_untouched example_digest
              (memory_deduplicator 5 sample_cache "dedup:") sample_cache
              10 10 sample_message "json" (Some "j") "dedup:j"
              eq_refl eq_refl) as (m' & E & O & _).
  exists m'. split; [exact E|]. rewrite O; [reflexivity | discriminate].
Defined.


(** X9 at an instance: a deduplicator built with the name [sha512]. *)
Lemma unknown_algorithm_never_hashes_witness :
  let d := {| ttl_seconds := 5; cache := memory_cache sample_cache;
              hasher := MessageHasher_init (PlainStr "sha512");
              key_prefix := "dedup:" |} in
  fst (is_duplicate example_digest d 10 10 sample_message "json" None) = d.
Proof.
  cbv zeta.
  apply (unknown_algorithm_never_hashes example_digest
           {| ttl_seconds := 5; cache := memory_cache sample_cache;
              hasher := MessageHasher_init (PlainStr "sha512");
              key_prefix := "dedup:" |}
           "sha512" 10 10 sample_message "json" eq_refl).
Defined.

(** X11 at an instance: a message that serializes to the bytes [abc]. *)
Lemma protobuf_contract_witness :
  hash_message example_digest default_hasher
    (PObj {| type_name := "Event"; SerializeToString := Some (Ok "abc") |})
    "Protobuf"
  = Ok (example_digest SHA256 "abc").
Proof.
  apply (protobuf_contract example_digest default_hasher
           {| type_name := "Event"; SerializeToString := Some (Ok "abc") |}
           "Protobuf" eq_refl);
    reflexivity.
Defined.

